(** * numenor_monitor: the request-logging middleware and its batching logger

    A shallow embedding of [numenor_monitor/middlewares.py] and the
    properties of its request path ([RequestLoggingMiddleware]) and of its
    persistence path ([RequestLogger]).

    Python values are modelled as follows.
    - WSGI header values and the other native strings of a request are
      [string] (one character per byte, as WSGI delivers them).
    - [bytes] objects (request and response bodies) are [list byte].
    - Decoded text (the [error] field) is a list of Unicode code points.
    - Python integers are [Z]; lengths are [nat] and are injected into [Z]
      where the source compares them with an integer.
    - [None] is [None] of an [option].
    - [request.META] is a finite map from header names to header values.
    - Raised exceptions are values of [exn]; code that can raise returns
      [exn + A]; code that also touches the logger, the database, the clock
      or the logging system runs in the state-and-error monad [M]. *)

From Stdlib Require Import ZArith List Strings.String Strings.Ascii Lia Bool.
From Stdlib Require Strings.Byte.
From stdpp Require Import base option list gmap strings pretty.

Local Open Scope Z_scope.

Abbreviation byte := Byte.byte.

(** ** Exceptions *)

(** The classes of the exceptions that occur in the module.  All of them
    derive from [Exception]; [UnicodeDecodeError] also derives from
    [ValueError].  [OtherError] stands for any further subclass of
    [Exception] (a database error, [Http404], [DisallowedHost], ...).
    Interpreter signals that do not derive from [Exception]
    ([KeyboardInterrupt], [SystemExit]) are not modelled. *)
Inductive exn_class :=
| Exception
| ValueError
| AttributeError
| UnicodeDecodeError
| OtherError (qualname : string).

Record exn := Raise { exn_type : exn_class; exn_str : string }.

Definition exn_class_eqb (c d : exn_class) : bool :=
  match c, d with
  | Exception, Exception => true
  | ValueError, ValueError => true
  | AttributeError, AttributeError => true
  | UnicodeDecodeError, UnicodeDecodeError => true
  | OtherError a, OtherError b => String.eqb a b
  | _, _ => false
  end.

(** [isinstance c d]: an exception of class [c] is caught by [except d]. *)
Definition isinstance (c d : exn_class) : bool :=
  match d with
  | Exception => true
  | ValueError =>
      match c with ValueError | UnicodeDecodeError => true | _ => false end
  | _ => exn_class_eqb c d
  end.

(** ** The error monad of pure code that may raise *)

Definition Exc (A : Type) : Type := exn + A.

#[global] Instance Exc_ret : MRet Exc := fun A x => inr x.
#[global] Instance Exc_bind : MBind Exc := fun A B f m =>
  match m with
  | inl e => inl e
  | inr x => f x
  end.
#[global] Instance Exc_throw : MThrow exn Exc := fun A e => inl e.

(** [try: m except classes: h] *)
Definition try_except {A} (m : Exc A) (classes : list exn_class)
    (h : exn -> Exc A) : Exc A :=
  match m with
  | inl e =>
      if existsb (isinstance (exn_type e)) classes then h e else inl e
  | inr x => inr x
  end.

(** ** Python built-ins used by the module *)

(** Truthiness of a [str]: the empty string is false. *)
Definition str_truthy (s : string) : bool :=
  match s with
  | EmptyString => false
  | String _ _ => true
  end.

(** [s.split(sep)] for a one-character separator: the pieces between the
    separators, in order; never the empty list. *)
Fixpoint py_split (sep : ascii) (s : string) : list string :=
  match s with
  | EmptyString => [EmptyString]
  | String c s' =>
      if Ascii.eqb c sep then EmptyString :: py_split sep s'
      else
        match py_split sep s' with
        | piece :: rest => String c piece :: rest
        | [] => [String c EmptyString]
        end
  end.

(** [l[0]] on the result of [split], which has at least one element. *)
Definition item0 (l : list string) : string :=
  match l with
  | x :: _ => x
  | [] => EmptyString
  end.

(** [len(x)] as a Python integer. *)
Definition len {A} (l : list A) : Z := Z.of_nat (length l).

(** *** Whitespace and digits of a string

    The characters are those of a WSGI native string (code points below
    256).  The whitespace that [str.strip] removes is 9-13, 28-32, 133 and
    160. *)

Definition is_space (c : ascii) : bool :=
  let n := N_of_ascii c in
  ((9 <=? n) && (n <=? 13) || (28 <=? n) && (n <=? 32)
   || (n =? 133) || (n =? 160))%N.

Definition is_digit (c : ascii) : bool :=
  let n := N_of_ascii c in ((48 <=? n) && (n <=? 57))%N.

Definition digit_value (c : ascii) : Z := Z.of_N (N_of_ascii c) - 48.

Fixpoint lstrip (s : string) : string :=
  match s with
  | String c s' => if is_space c then lstrip s' else s
  | EmptyString => EmptyString
  end.

(** *** [int(s)] for a string

    The conversion skips the whitespace before the literal, reads one
    optional sign and then the run of digits, in which single underscores
    may separate digits; a run of more than 4300 digits (the interpreter's
    default limit; leading zeros count, underscores do not) is refused;
    after the run only whitespace may follow.  The whitespace of the
    conversion is narrower than that of [str.strip]: 9-13 and 32, and of the
    characters above 127 those that are Unicode spaces, 133 and 160; the
    separators 28-31 are not skipped. *)

Definition is_int_space (c : ascii) : bool :=
  let n := N_of_ascii c in
  ((9 <=? n) && (n <=? 13) || (n =? 32) || (n =? 133) || (n =? 160))%N.

Fixpoint int_lstrip (s : string) : string :=
  match s with
  | String c s' => if is_int_space c then int_lstrip s' else s
  | EmptyString => EmptyString
  end.

(** The run of digits of a literal; [after_digit] tells whether the
    previous character was a digit, which is when an underscore or the end
    of the run is allowed.  Returns the value, the number of digits and the
    unread rest. *)
Fixpoint int_digits (acc : Z) (count : N) (after_digit : bool) (s : string)
    : option (Z * N * string) :=
  match s with
  | EmptyString =>
      if after_digit then Some (acc, count, EmptyString) else None
  | String c s' =>
      if is_digit c
      then int_digits (10 * acc + digit_value c) (N.succ count) true s'
      else if Ascii.eqb c "_" then
        if after_digit then int_digits acc count false s' else None
      else if after_digit then Some (acc, count, s) else None
  end.

Definition int_max_str_digits : N := 4300.

Inductive int_outcome :=
| IntValue (n : Z)
| IntInvalid
| IntTooLong (digits : N).

Definition scan_int (s : string) : int_outcome :=
  let s1 := int_lstrip s in
  let '(sign, s2) :=
    match s1 with
    | String "-" r => (-1, r)
    | String "+" r => (1, r)
    | _ => (1, s1)
    end in
  match int_digits 0 0 false s2 with
  | Some (n, digits, rest) =>
      if (int_max_str_digits <? digits)%N then IntTooLong digits
      else
        match int_lstrip rest with
        | EmptyString => IntValue (sign * n)
        | String _ _ => IntInvalid
        end
  | None => IntInvalid
  end.

(** The value of [int(s)], if it has one. *)
Definition parse_int (s : string) : option Z :=
  match scan_int s with
  | IntValue n => Some n
  | _ => None
  end.

(** The first [n] characters of a string. *)
Fixpoint str_take (n : nat) (s : string) : string :=
  match n, s with
  | S n', String c s' => String c (str_take n' s')
  | _, _ => EmptyString
  end.

(** *** [repr] of [str] and [bytes] *)

Definition hex_digit (n : N) : ascii :=
  ascii_of_N (if (n <? 10)%N then 48 + n else 87 + n).

Definition hex_escape (c : ascii) : string :=
  let n := N_of_ascii c in
  String "\" (String "x" (String (hex_digit (n / 16)) (String (hex_digit (n mod 16)) EmptyString))).

Fixpoint contains (c : ascii) (s : string) : bool :=
  match s with
  | EmptyString => false
  | String d s' => Ascii.eqb c d || contains c s'
  end.

(** The quote of a [repr]: a double quote when the text has a single quote
    and no double quote, a single quote otherwise. *)
Definition repr_quote (s : string) : ascii :=
  if contains "'" s && negb (contains "034" s) then "034"%char else "'"%char.

Definition str_printable (c : ascii) : bool :=
  let n := N_of_ascii c in
  ((32 <=? n) && (n <? 127) || (161 <=? n) && negb (n =? 173))%N.

Definition bytes_printable (c : ascii) : bool :=
  let n := N_of_ascii c in ((32 <=? n) && (n <? 127))%N.

Fixpoint repr_body (printable : ascii -> bool) (quote : ascii) (s : string)
    : string :=
  match s with
  | EmptyString => EmptyString
  | String c s' =>
      (if Ascii.eqb c quote || Ascii.eqb c "\" then String "\" (String c EmptyString)
       else if Ascii.eqb c "009" then "\t"
       else if Ascii.eqb c "010" then "\n"
       else if Ascii.eqb c "013" then "\r"
       else if printable c then String c EmptyString
       else hex_escape c)
      +:+ repr_body printable quote s'
  end.

Definition repr_str (s : string) : string :=
  let q := repr_quote s in
  String q (repr_body str_printable q s +:+ String q EmptyString).

Definition repr_bytes (b : list byte) : string :=
  let s := string_of_list_byte b in
  let q := repr_quote s in
  String "b" (String q (repr_body bytes_printable q s +:+ String q EmptyString)).

(** [int(s)]: the value, or [ValueError].  The message for a string that
    is not a literal shows at most 200 characters of its [repr]. *)
Definition int (s : string) : Exc Z :=
  match scan_int s with
  | IntValue n => mret n
  | IntInvalid =>
      mthrow (Raise ValueError
                ("invalid literal for int() with base 10: "
                 +:+ str_take 200 (repr_str s)))
  | IntTooLong digits =>
      mthrow (Raise ValueError
                ("Exceeds the limit (" +:+ pretty int_max_str_digits
                 +:+ " digits) for integer string conversion: value has "
                 +:+ pretty digits
                 +:+ " digits; use sys.set_int_max_str_digits() to increase the limit"))
  end.

(** *** [bytes.decode("utf-8")]

    Strict decoding: a malformed, truncated or overlong sequence, an encoded
    surrogate and a code point above 0x10FFFF are errors. *)

Definition unicode : Type := list N.

Definition str_to_unicode (s : string) : unicode :=
  map N_of_ascii (list_ascii_of_string s).

Section Utf8.
Local Open Scope N_scope.

Definition is_cont (b : N) : bool := (0x80 <=? b) && (b <=? 0xBF).

(** The range of the second byte, which depends on the first. *)
Definition second_ok (b0 b1 : N) : bool :=
  if b0 =? 0xE0 then (0xA0 <=? b1) && (b1 <=? 0xBF)
  else if b0 =? 0xED then (0x80 <=? b1) && (b1 <=? 0x9F)
  else if b0 =? 0xF0 then (0x90 <=? b1) && (b1 <=? 0xBF)
  else if b0 =? 0xF4 then (0x80 <=? b1) && (b1 <=? 0x8F)
  else is_cont b1.

Fixpoint utf8_decode (bs : list N) : option unicode :=
  match bs with
  | [] => Some []
  | b0 :: r0 =>
      if b0 <? 0x80 then cons b0 <$> utf8_decode r0
      else if (0xC2 <=? b0) && (b0 <=? 0xDF) then
        match r0 with
        | b1 :: r1 =>
            if is_cont b1
            then cons ((b0 - 0xC0) * 64 + (b1 - 0x80)) <$> utf8_decode r1
            else None
        | _ => None
        end
      else if (0xE0 <=? b0) && (b0 <=? 0xEF) then
        match r0 with
        | b1 :: b2 :: r2 =>
            if second_ok b0 b1 && is_cont b2
            then cons ((b0 - 0xE0) * 4096 + (b1 - 0x80) * 64 + (b2 - 0x80))
                   <$> utf8_decode r2
            else None
        | _ => None
        end
      else if (0xF0 <=? b0) && (b0 <=? 0xF4) then
        match r0 with
        | b1 :: b2 :: b3 :: r3 =>
            if second_ok b0 b1 && is_cont b2 && is_cont b3
            then cons ((b0 - 0xF0) * 262144 + (b1 - 0x80) * 4096
                       + (b2 - 0x80) * 64 + (b3 - 0x80))
                   <$> utf8_decode r3
            else None
        | _ => None
        end
      else None
  end.

End Utf8.

(** [b.decode("utf-8")] *)
Definition decode_utf8 (b : list byte) : Exc unicode :=
  match utf8_decode (map Byte.to_N b) with
  | Some text => mret text
  | None =>
      mthrow (Raise UnicodeDecodeError "'utf-8' codec can't decode bytes")
  end.

(** [str(b)] for a [bytes] object is its [repr]. *)
Definition str_bytes (b : list byte) : unicode := str_to_unicode (repr_bytes b).

(** ** Requests and responses *)

Record User := {
  user_pk : Z;
  username : string;
  is_authenticated : bool
}.

(** The part of [HttpRequest] that the middleware reads.  [get_host] is the
    outcome of [request.get_host()], which raises on a disallowed host;
    [GET_urlencode] is [request.GET.urlencode()]; [body] is the outcome of
    reading [request.body], which raises once the stream of the request was
    read some other way; [user] is [None] when the request has no [user]
    attribute and [Some None] when the attribute is [None]. *)
Record HttpRequest := {
  scheme : string;
  get_host : Exc string;
  path : string;
  GET_urlencode : string;
  method : option string;
  META : gmap string string;
  body : Exc (list byte);
  user : option (option User)
}.

(** What a handler can return: a response with a body, a streaming response
    (which has no [content] attribute), or [None]. *)
Inductive Response :=
| HttpResponse (status : Z) (body : list byte)
| StreamingHttpResponse (status : Z)
| NoResponse.

(** [response.status_code] *)
Definition status_code (response : Response) : Exc Z :=
  match response with
  | HttpResponse st _ => mret st
  | StreamingHttpResponse st => mret st
  | NoResponse =>
      mthrow (Raise AttributeError
                "'NoneType' object has no attribute 'status_code'")
  end.

(** [response.content] *)
Definition content (response : Response) : Exc (list byte) :=
  match response with
  | HttpResponse _ b => mret b
  | StreamingHttpResponse _ =>
      mthrow (Raise AttributeError
                "This StreamingHttpResponse instance has no `content` attribute. Use `streaming_content` instead.")
  | NoResponse =>
      mthrow (Raise AttributeError
                "'NoneType' object has no attribute 'content'")
  end.

(** [hasattr(response, "content")] *)
Definition hasattr_content (response : Response) : bool :=
  match content response with
  | inr _ => true
  | inl _ => false
  end.

(** ** The derivations of [RequestLoggingMiddleware] *)

(** [get_client_ip] *)
Definition get_client_ip (request : HttpRequest) : option string :=
  let x_forwarded_for := META request !! "HTTP_X_FORWARDED_FOR" in
  match x_forwarded_for with
  | Some xff =>
      if str_truthy xff then Some (item0 (py_split "," xff))
      else META request !! "REMOTE_ADDR"
  | None => META request !! "REMOTE_ADDR"
  end.

(** [_calculate_sizes] *)
Definition _calculate_sizes (request : HttpRequest) (response : Response)
    : Exc (Z * Z) :=
  let content_length := META request !! "CONTENT_LENGTH" in
  request_size ←
    match content_length with
    | Some cl =>
        if str_truthy cl then int cl
        else b ← body request; mret (len b)
    | None => b ← body request; mret (len b)
    end;
  response_size ←
    (if hasattr_content response
     then c ← content response; mret (len c)
     else mret 0);
  mret (request_size, response_size).

(** [_get_error_content] *)
Definition _get_error_content (response : Response) : Exc unicode :=
  st ← status_code response;
  if (st >=? 400)%Z then
    try_except
      (c ← content response; decode_utf8 c)
      [AttributeError; UnicodeDecodeError]
      (fun _ => c ← content response; mret (str_bytes c))
  else mret (str_to_unicode "").

(** [_get_user_info] *)
Definition _get_user_info (request : HttpRequest) : option User * string :=
  match user request with
  | Some (Some u) =>
      if is_authenticated u then (Some u, username u) else (None, "")
  | _ => (None, "")
  end.

(** ** Records, the logger and the world around it *)

(** The keyword arguments of [models.Request], which is also the dictionary
    that [log_request] puts on the queue. *)
Record Fields := {
  f_scheme : string;
  f_host : string;
  f_path : string;
  f_query : string;
  f_method : option string;
  f_ip_address : option string;
  f_user_agent : string;
  f_user : option User;
  f_username : string;
  f_start_at : Z;
  f_end_at : Z;
  f_status_code : Z;
  f_error : unicode;
  f_request_size : Z;
  f_response_size : Z
}.

(** An unsaved instance of the model, built from the keyword arguments. *)
Inductive RequestModel := Request (kwargs : Fields).

(** The attributes of a [RequestLogger].  [queue] holds the pending items,
    the next one to get first; [thread] tells whether a worker was started. *)
Record RequestLogger := {
  queue : list Fields;
  batch_size : Z;
  flush_interval : Z;
  last_flush : Z;
  thread : bool
}.

Inductive Level := ERROR.

Record LogRecord := {
  levelname : Level;
  name : string;
  message : string
}.

(** Everything the module reads or writes: the logger object, the table of
    [Request] (as the batches inserted so far, oldest first), the number of
    [bulk_create] calls made so far, the number of clock readings made so
    far and the records emitted through [logging]. *)
Record State := {
  logger : RequestLogger;
  database : list (list RequestModel);
  bulk_calls : nat;
  clock : nat;
  log : list LogRecord
}.

Definition with_logger (lg : RequestLogger) (s : State) : State :=
  {| logger := lg; database := database s; bulk_calls := bulk_calls s;
     clock := clock s; log := log s |}.

Definition with_queue (q : list Fields) (lg : RequestLogger) : RequestLogger :=
  {| queue := q; batch_size := batch_size lg;
     flush_interval := flush_interval lg; last_flush := last_flush lg;
     thread := thread lg |}.

Definition with_last_flush (t : Z) (lg : RequestLogger) : RequestLogger :=
  {| queue := queue lg; batch_size := batch_size lg;
     flush_interval := flush_interval lg; last_flush := t;
     thread := thread lg |}.

(** The persisted records, in insertion order. *)
Definition persisted (s : State) : list RequestModel := concat (database s).

(** *** The state-and-error monad *)

Definition M (A : Type) : Type := State -> Exc A * State.

#[global] Instance M_ret : MRet M := fun A x s => (inr x, s).
#[global] Instance M_bind : MBind M := fun A B f m s =>
  match m s with
  | (inl e, s') => (inl e, s')
  | (inr x, s') => f x s'
  end.
#[global] Instance M_throw : MThrow exn M := fun A e s => (inl e, s).

(** Pure code that may raise, run inside [M]. *)
Definition lift {A} (m : Exc A) : M A := fun s => (m, s).

(** [try: m except classes as e: h e].  What [m] did to the state before
    it raised stays done. *)
Definition try_except_M {A} (m : M A) (classes : list exn_class)
    (h : exn -> M A) : M A := fun s =>
  match m s with
  | (inl e, s') =>
      if existsb (isinstance (exn_type e)) classes then h e s'
      else (inl e, s')
  | (inr x, s') => (inr x, s')
  end.

Definition get_logger : M RequestLogger := fun s => (inr (logger s), s).

Definition set_logger (lg : RequestLogger) : M unit := fun s =>
  (inr tt, with_logger lg s).

(** [logging.getLogger(__name__).error(msg)] *)
Definition logger_error (msg : string) : M unit := fun s =>
  (inr tt,
   {| logger := logger s; database := database s;
      bulk_calls := bulk_calls s; clock := clock s;
      log := log s ++ [{| levelname := ERROR;
                          name := "numenor_monitor.middlewares";
                          message := msg |}] |}).

Section World.

(** The environment: the time that the n-th reading of the clock shows, and
    whether the n-th call of [bulk_create] raises for the batch it is
    given. *)
Variable now_at : nat -> Z.
Variable sink_error : nat -> list RequestModel -> option exn.

(** [timezone.now()] *)
Definition timezone_now : M Z := fun s =>
  (inr (now_at (clock s)),
   {| logger := logger s; database := database s;
      bulk_calls := bulk_calls s; clock := S (clock s); log := log s |}).

(** [Request.objects.bulk_create(batch)]: inserts the whole batch or raises
    and inserts nothing. *)
Definition bulk_create (batch : list RequestModel) : M unit := fun s =>
  match sink_error (bulk_calls s) batch with
  | Some e =>
      (inl e,
       {| logger := logger s; database := database s;
          bulk_calls := S (bulk_calls s); clock := clock s; log := log s |})
  | None =>
      (inr tt,
       {| logger := logger s; database := database s ++ [batch];
          bulk_calls := S (bulk_calls s); clock := clock s; log := log s |})
  end.

(** *** [RequestLogger] *)

(** [__init__], without the start of the worker. *)
Definition RequestLogger_init (batch_size : Z) (use_thread : bool)
    (flush_interval : Z) : M RequestLogger :=
  now ← timezone_now;
  mret {| queue := []; batch_size := batch_size;
          flush_interval := flush_interval; last_flush := now;
          thread := use_thread |}.

(** [self.queue.put(item)] *)
Definition queue_put (item : Fields) : M unit :=
  self ← get_logger;
  set_logger (with_queue (queue self ++ [item]) self).

(** [log_request] *)
Definition log_request (scheme host path query : string)
    (method ip_address : option string) (user_agent : string)
    (user : option User) (username : string) (start_at end_at : Z)
    (status_code : Z) (error : unicode) (request_size response_size : Z)
    : M unit :=
  queue_put
    {| f_scheme := scheme; f_host := host; f_path := path; f_query := query;
       f_method := method; f_ip_address := ip_address;
       f_user_agent := user_agent; f_user := user; f_username := username;
       f_start_at := start_at; f_end_at := end_at;
       f_status_code := status_code; f_error := error;
       f_request_size := request_size; f_response_size := response_size |}.

(** The loop of [process_batch].  [pending] is the content of the queue:
    the loop ends when it is empty and otherwise gets its first item. *)
Fixpoint process_batch_loop (pending : list Fields)
    (batch : list RequestModel) : M (list RequestModel) :=
  match pending with
  | [] => mret batch
  | item :: pending' =>
      self ← get_logger;
      set_logger (with_queue pending' self);;
      let batch := batch ++ [Request item] in
      if (len batch >=? batch_size self)%Z
      then bulk_create batch;; process_batch_loop pending' []
      else process_batch_loop pending' batch
  end.

(** [process_batch] *)
Definition process_batch : M unit :=
  self ← get_logger;
  batch ← process_batch_loop (queue self) [];
  match batch with
  | _ :: _ => bulk_create batch
  | [] => mret tt
  end.

(** [_flush_batch].  The list [batch] is the caller's own object, which the
    method empties in place: the result is the content of that list after
    the call. *)
Definition _flush_batch (batch : list RequestModel)
    : M (list RequestModel) :=
  try_except_M
    (bulk_create batch;;
     let batch : list RequestModel := [] in
     now ← timezone_now;
     self ← get_logger;
     set_logger (with_last_flush now self);;
     mret batch)
    [Exception]
    (fun e =>
       logger_error ("Error bulk creating records: " +:+ exn_str e);;
       let batch : list RequestModel := [] in
       mret batch).

(** One turn of the loop of [_process_queue], the worker: [queue.get] with
    its timeout yields the first pending item, or [queue.Empty] when there
    is none.  Times are in seconds. *)
Definition _process_queue_iteration (batch : list RequestModel)
    : M (list RequestModel) :=
  self ← get_logger;
  batch ←
    match queue self with
    | item :: pending' =>
        set_logger (with_queue pending' self);;
        let batch := batch ++ [Request item] in
        if (len batch >=? batch_size self)%Z
        then _flush_batch batch
        else mret batch
    | [] => mret batch
    end;
  match batch with
  | _ :: _ =>
      now ← timezone_now;
      self ← get_logger;
      if (now - last_flush self >? flush_interval self)%Z
      then _flush_batch batch
      else mret batch
  | [] => mret batch
  end.

(** *** [RequestLoggingMiddleware] *)

Record RequestLoggingMiddleware := {
  get_response : HttpRequest -> M Response
}.

(** The body of the [try] statement of [__call__]. *)
Definition capture (request : HttpRequest) (response : Response)
    (start_at : Z) : M unit :=
  end_at ← timezone_now;
  status_code ← lift (status_code response);
  sizes ← lift (_calculate_sizes request response);
  let '(request_size, response_size) := sizes in
  error ← lift (_get_error_content response);
  let '(user, username) := _get_user_info request in
  host ← lift (get_host request);
  log_request (scheme request) host (path request) (GET_urlencode request)
    (method request) (get_client_ip request)
    (default "" (META request !! "HTTP_USER_AGENT"))
    user username start_at end_at status_code error
    request_size response_size.

(** [__call__] *)
Definition __call__ (self : RequestLoggingMiddleware)
    (request : HttpRequest) : M Response :=
  start_at ← timezone_now;
  response ← get_response self request;
  try_except_M
    (capture request response start_at)
    [Exception]
    (fun e =>
       logger_error ("Error in RequestLoggingMiddleware: " +:+ exn_str e));;
  mret response.

End World.

(** ** Specification-level notions *)

(** [returns m]: the computation [m] ends without raising, from every
    state. *)
Definition returns {A} (m : M A) : Prop :=
  forall s, exists x s', m s = (inr x, s').

(** A sink none of whose bulk inserts raises. *)
Definition reliable (sink_error : nat -> list RequestModel -> option exn)
    : Prop :=
  forall k batch, sink_error k batch = None.

(** [first_entry xff ip]: [ip] is the text of [xff] before its first comma
    (all of [xff] when it has none). *)
Definition first_entry (xff ip : string) : Prop :=
  contains "," ip = false /\
  (xff = ip \/ exists tail, xff = ip +:+ String "," tail).

(** UTF-8 encoding, the inverse of the decoding above on texts made of
    scalar values (code points up to 0x10FFFF that are not surrogates). *)
Section Utf8Encoding.
Local Open Scope N_scope.

Definition scalar_value (cp : N) : Prop :=
  cp < 0xD800 \/ (0xDFFF < cp /\ cp < 0x110000).

Definition utf8_encode_char (cp : N) : list N :=
  if cp <? 0x80 then [cp]
  else if cp <? 0x800 then [0xC0 + cp / 64; 0x80 + cp mod 64]
  else if cp <? 0x10000 then
    [0xE0 + cp / 4096; 0x80 + (cp / 64) mod 64; 0x80 + cp mod 64]
  else
    [0xF0 + cp / 262144; 0x80 + (cp / 4096) mod 64;
     0x80 + (cp / 64) mod 64; 0x80 + cp mod 64].

Definition utf8_encode (text : unicode) : list N :=
  concat (map utf8_encode_char text).

End Utf8Encoding.

(** [str.strip()] *)
Fixpoint rstrip (s : string) : string :=
  match s with
  | EmptyString => EmptyString
  | String c s' =>
      match rstrip s' with
      | EmptyString => if is_space c then EmptyString else String c EmptyString
      | r => String c r
      end
  end.

Definition strip (s : string) : string := rstrip (lstrip s).

(** The client address in the words of the specification: the first entry
    of the forwarded-for header, trimmed, when the header is present, and
    the remote address otherwise. *)
Definition spec_client_ip (request : HttpRequest) : option string :=
  match META request !! "HTTP_X_FORWARDED_FOR" with
  | Some xff => Some (strip (item0 (py_split "," xff)))
  | None => META request !! "REMOTE_ADDR"
  end.

(** The request size in the words of the specification: the declared
    content length when the header is present and parses as an integer, the
    length of the body otherwise. *)
Definition spec_request_size (request : HttpRequest) : Exc Z :=
  match META request !! "CONTENT_LENGTH" with
  | Some cl =>
      match parse_int cl with
      | Some n => mret n
      | None => b ← body request; mret (len b)
      end
  | None => b ← body request; mret (len b)
  end.

(** ** Sample data, after the fixtures of the test suite *)

Definition request_with (meta : gmap string string) (b : list byte)
    : HttpRequest :=
  {| scheme := "http"; get_host := inr "testserver"; path := "/";
     GET_urlencode := ""; method := Some "GET"; META := meta;
     body := inr b; user := None |}.

Definition forwarded_request : HttpRequest :=
  request_with {[ "HTTP_X_FORWARDED_FOR" := "10.0.0.1, 192.168.1.1" ]} [].

Definition untrimmed_request : HttpRequest :=
  request_with {[ "HTTP_X_FORWARDED_FOR" := " 10.0.0.1,192.168.1.1" ]} [].

Definition empty_forwarded_request : HttpRequest :=
  request_with (<[ "HTTP_X_FORWARDED_FOR" := "" ]>
                  {[ "REMOTE_ADDR" := "192.168.1.1" ]}) [].

Definition sized_request : HttpRequest :=
  request_with {[ "CONTENT_LENGTH" := "42" ]} (list_byte_of_string "hello").

Definition bad_length_request : HttpRequest :=
  request_with {[ "CONTENT_LENGTH" := "abc" ]} (list_byte_of_string "hello").

Definition not_found : Response :=
  HttpResponse 404 (list_byte_of_string "Error").

(** A string of [n] zeros. *)
Fixpoint zeros (n : nat) : string :=
  match n with
  | O => EmptyString
  | S n' => String "0" (zeros n')
  end.

Definition sample_item (n : Z) : Fields :=
  {| f_scheme := "http"; f_host := "test.com"; f_path := "/path";
     f_query := ""; f_method := Some "GET";
     f_ip_address := Some "127.0.0.1"; f_user_agent := ""; f_user := None;
     f_username := ""; f_start_at := n; f_end_at := n; f_status_code := 200;
     f_error := []; f_request_size := 0; f_response_size := 100 |}.

Definition three_items : list Fields :=
  [sample_item 1; sample_item 2; sample_item 3].

(** A logger without a worker, as [RequestLogger(batch_size=size,
    use_thread=False)] makes it, in a world where nothing happened yet. *)
Definition sample_state (pending : list Fields) (size : Z) : State :=
  {| logger := {| queue := pending; batch_size := size; flush_interval := 60;
                  last_flush := 0; thread := false |};
     database := []; bulk_calls := 0; clock := 0; log := [] |}.

Definition no_error : nat -> list RequestModel -> option exn :=
  fun _ _ => None.

Definition db_error : nat -> list RequestModel -> option exn :=
  fun _ _ => Some (Raise Exception "DB error").

Definition seconds : nat -> Z := Z.of_nat.

Definition failing_view : RequestLoggingMiddleware :=
  {| get_response := fun _ =>
       mthrow (Raise Exception "Internal server error") |}.

Definition not_found_view : RequestLoggingMiddleware :=
  {| get_response := fun _ => mret not_found |}.

(** A response without a body, and a handler that returns it. *)
Definition streaming_not_found : Response := StreamingHttpResponse 404.

Definition streaming_view : RequestLoggingMiddleware :=
  {| get_response := fun _ => mret streaming_not_found |}.

(** A request whose body cannot be read any more. *)
Definition consumed_request : HttpRequest :=
  {| scheme := "http"; get_host := inr "testserver"; path := "/";
     GET_urlencode := ""; method := Some "POST"; META := ∅;
     body := inl (Raise (OtherError "RawPostDataException")
                    "You cannot access body after reading from request's data stream");
     user := None |}.

(** ** Further code of the package *)

(** [Request.__str__] of [models.py]: the URL of the record. *)
Definition __str__ (self : RequestModel) : string :=
  let 'Request f := self in
  let query_part :=
    if str_truthy (f_query f) then "?" +:+ f_query f else "" in
  f_scheme f +:+ "://" +:+ f_host f +:+ f_path f +:+ query_part.

Section WorkerLoop.

Variable now_at : nat -> Z.
Variable sink_error : nat -> list RequestModel -> option exn.

(** The first [n] turns of the loop of [_process_queue], entered with the
    batch [batch] (which is empty when the worker starts).  The loop has no
    exit; what precedes it, the opening of the database connection, is not
    part of it. *)
Fixpoint _process_queue_turns (n : nat) (batch : list RequestModel)
    : M (list RequestModel) :=
  match n with
  | O => mret batch
  | S n' =>
      batch' ← _process_queue_iteration now_at sink_error batch;
      _process_queue_turns n' batch'
  end.

End WorkerLoop.

(** One call of [log_request] per item, in order. *)
Fixpoint log_each (items : list Fields) : M unit :=
  match items with
  | [] => mret tt
  | item :: items' =>
      log_request (f_scheme item) (f_host item) (f_path item) (f_query item)
        (f_method item) (f_ip_address item) (f_user_agent item)
        (f_user item) (f_username item) (f_start_at item) (f_end_at item)
        (f_status_code item) (f_error item) (f_request_size item)
        (f_response_size item);;
      log_each items'
  end.

(** [ensures m s Q]: from the state [s], the computation [m] returns
    without raising, with a result and a final state that satisfy [Q]. *)
Definition ensures {A} (m : M A) (s : State) (Q : A -> State -> Prop)
    : Prop :=
  exists x s', m s = (inr x, s') /\ Q x s'.

(** The record that the middleware derives from a request and the response
    of its handler, between two readings of the clock. *)
Definition derived_item (request : HttpRequest) (host : string)
    (start_at end_at st : Z) (error : unicode)
    (request_size response_size : Z) : Fields :=
  {| f_scheme := scheme request; f_host := host; f_path := path request;
     f_query := GET_urlencode request; f_method := method request;
     f_ip_address := get_client_ip request;
     f_user_agent := default "" (META request !! "HTTP_USER_AGENT");
     f_user := (_get_user_info request).1;
     f_username := (_get_user_info request).2;
     f_start_at := start_at; f_end_at := end_at; f_status_code := st;
     f_error := error; f_request_size := request_size;
     f_response_size := response_size |}.

(** The state after [item] was put on the queue. *)
Definition enqueued (item : Fields) (s : State) : State :=
  with_logger (with_queue (queue (logger s) ++ [item]) (logger s)) s.

(** The error line of the logger for an insert that raised [e]. *)
Definition bulk_error_line (e : exn) : LogRecord :=
  {| levelname := ERROR; name := "numenor_monitor.middlewares";
     message := "Error bulk creating records: " +:+ exn_str e |}.

(** More sample data. *)
Definition local_request : HttpRequest :=
  request_with {[ "REMOTE_ADDR" := "127.0.0.1" ]} [].

Definition e_acute : list byte := [Byte.xc3; Byte.xa9].

Definition query_item : Fields :=
  {| f_scheme := "https"; f_host := "example.com"; f_path := "/search";
     f_query := "q=test"; f_method := Some "GET";
     f_ip_address := Some "127.0.0.1"; f_user_agent := ""; f_user := None;
     f_username := ""; f_start_at := 0; f_end_at := 0; f_status_code := 200;
     f_error := []; f_request_size := 0; f_response_size := 200 |}.

Definition testuser : User :=
  {| user_pk := 1; username := "testuser"; is_authenticated := true |}.

Definition authenticated_request : HttpRequest :=
  {| scheme := "http"; get_host := inr "testserver"; path := "/test/";
     GET_urlencode := ""; method := Some "GET"; META := ∅; body := inr [];
     user := Some (Some testuser) |}.

(** The URL of a record without its query string. *)
Definition url_base (f : Fields) : string :=
  f_scheme f +:+ "://" +:+ f_host f +:+ f_path f.

(** A clock that shows 61 seconds at its first reading. *)
Definition late_clock : nat -> Z := fun n => 61 + Z.of_nat n.

(** [same_settings s s']: the settings of the logger, the time of its last
    flush, the clock and the log are the same in [s'] as in [s]. *)
Definition same_settings (s s' : State) : Prop :=
  batch_size (logger s') = batch_size (logger s) /\
  flush_interval (logger s') = flush_interval (logger s) /\
  last_flush (logger s') = last_flush (logger s) /\
  thread (logger s') = thread (logger s) /\
  clock s' = clock s /\
  log s' = log s.

(** * Properties *)

(** ** The client address *)

Lemma contains_String c d s :
  contains c (String d s) = Ascii.eqb c d || contains c s.
Proof. reflexivity. Qed.

Lemma py_split_nonempty sep s : py_split sep s <> [].
Proof.
  destruct s as [|c s]; cbn [py_split]; [discriminate|].
  destruct (Ascii.eqb c sep); [discriminate|].
  destruct (py_split sep s); discriminate.
Qed.

Lemma py_split_first_entry xff : first_entry xff (item0 (py_split "," xff)).
Proof.
  induction xff as [|c xff IH]; cbn [py_split].
  - split; [reflexivity | now left].
  - destruct (Ascii.eqb_spec c ",") as [->|Hc]; cbn [item0].
    + split; [reflexivity | right; now exists xff].
    + destruct IH as [Hno Hsplit].
      assert (Hc' : Ascii.eqb "," c = false)
        by (apply Ascii.eqb_neq; congruence).
      destruct (py_split "," xff) as [|piece rest]; cbn [item0] in *.
      * split; [now rewrite contains_String, Hc'|].
        destruct Hsplit as [->|[tail ->]]; [now left | right; now exists tail].
      * split; [now rewrite contains_String, Hc'|].
        destruct Hsplit as [->|[tail ->]]; [now left | right; now exists tail].
Qed.

(** C3, as stated, does not hold of the code: a first entry that starts with
    a blank is returned with the blank, where the specification trims it. *)
Lemma get_client_ip_not_trimmed :
  get_client_ip untrimmed_request = Some " 10.0.0.1" /\
  spec_client_ip untrimmed_request = Some "10.0.0.1" /\
  get_client_ip untrimmed_request <> spec_client_ip untrimmed_request.
Proof. vm_compute. repeat split; discriminate. Qed.

(** An empty forwarded-for header is present, and yet it is the remote
    address that is derived. *)
Lemma get_client_ip_empty_not_first_entry :
  get_client_ip empty_forwarded_request = Some "192.168.1.1" /\
  spec_client_ip empty_forwarded_request = Some "".
Proof. vm_compute. split; reflexivity. Qed.

(** C3, amended: when the forwarded-for header is present and not empty, the
    derived address is its first comma-separated entry as it stands (not
    trimmed); when the header is absent or empty it is the remote address of
    the connection, hence [None] when there is no remote address either;
    the header ["10.0.0.1, 192.168.1.1"] gives ["10.0.0.1"]. *)
Theorem get_client_ip_first_entry (request : HttpRequest) :
  (forall xff, META request !! "HTTP_X_FORWARDED_FOR" = Some xff ->
               xff <> "" ->
               exists ip, get_client_ip request = Some ip /\
                          first_entry xff ip) /\
  (META request !! "HTTP_X_FORWARDED_FOR" = None \/
   META request !! "HTTP_X_FORWARDED_FOR" = Some "" ->
   get_client_ip request = META request !! "REMOTE_ADDR") /\
  (META request !! "HTTP_X_FORWARDED_FOR" = None ->
   META request !! "REMOTE_ADDR" = None ->
   get_client_ip request = None) /\
  (META request !! "HTTP_X_FORWARDED_FOR" = Some "10.0.0.1, 192.168.1.1" ->
   get_client_ip request = Some "10.0.0.1").
Proof.
  unfold get_client_ip. repeat split.
  - intros xff -> Hne. destruct xff as [|c xff]; [congruence|].
    cbn [str_truthy]. eexists. split; [reflexivity|].
    apply py_split_first_entry.
  - intros [-> | ->]; reflexivity.
  - intros -> ->. reflexivity.
  - intros ->. reflexivity.
Qed.

Lemma get_client_ip_first_entry_witness :
  META forwarded_request !! "HTTP_X_FORWARDED_FOR"
    = Some "10.0.0.1, 192.168.1.1" /\
  get_client_ip forwarded_request = Some "10.0.0.1".
Proof.
  split; [vm_compute; reflexivity|].
  destruct (get_client_ip_first_entry forwarded_request) as (_ & _ & _ & H).
  apply H. vm_compute. reflexivity.
Defined.

(** C10: a forwarded-for header whose value is the empty string counts as
    absent: the derived address is the remote address. *)
Theorem get_client_ip_empty_header (request : HttpRequest) :
  META request !! "HTTP_X_FORWARDED_FOR" = Some "" ->
  get_client_ip request = META request !! "REMOTE_ADDR".
Proof. intros H. unfold get_client_ip. rewrite H. reflexivity. Qed.

Lemma get_client_ip_empty_header_witness :
  META empty_forwarded_request !! "HTTP_X_FORWARDED_FOR" = Some "" /\
  get_client_ip empty_forwarded_request
    = META empty_forwarded_request !! "REMOTE_ADDR".
Proof.
  split; [vm_compute; reflexivity|].
  apply get_client_ip_empty_header. vm_compute. reflexivity.
Defined.

(** ** The sizes *)

Lemma response_size_returns (response : Response) :
  exists n,
    (if hasattr_content response
     then c ← content response; mret (len c)
     else mret 0) = (inr n : Exc Z).
Proof.
  unfold hasattr_content.
  destruct (content response) as [e|c]; [exists 0 | exists (len c)];
    reflexivity.
Qed.

(** [int] and [parse_int] agree: the conversion returns the parsed value or
    raises [ValueError]. *)
Lemma int_parse_int (s : string) (n : Z) :
  parse_int s = Some n -> int s = inr n.
Proof.
  unfold parse_int, int. destruct (scan_int s); [|discriminate..].
  now intros [= ->].
Qed.

Lemma int_not_parsed (s : string) :
  parse_int s = None ->
  exists e, int s = inl e /\ exn_type e = ValueError.
Proof.
  unfold parse_int, int. destruct (scan_int s); [discriminate|..];
    intros _; eexists; split; reflexivity.
Qed.

Lemma int_raises (s : string) (e : exn) :
  int s = inl e -> exn_type e = ValueError /\ parse_int s = None.
Proof.
  unfold parse_int, int. destruct (scan_int s); [discriminate|..];
    intros [= <-]; split; reflexivity.
Qed.

(** The conversion skips blanks, tabs and the two spaces above 127, but not
    the separators 28-31; it accepts 4300 digits and refuses 4301, counting
    leading zeros. *)
Lemma int_edges :
  parse_int " 42 " = Some 42 /\
  parse_int (String "133" (String "7" (String "160" ""))) = Some 7 /\
  parse_int (String "028" "7") = None /\
  parse_int "1_000" = Some 1000 /\
  parse_int "1__0" = None /\
  parse_int "-0" = Some 0 /\
  parse_int "" = None /\
  parse_int (zeros 4300) = Some 0 /\
  parse_int (zeros 4301) = None /\
  int (zeros 4301) =
    inl (Raise ValueError
           "Exceeds the limit (4300 digits) for integer string conversion: value has 4301 digits; use sys.set_int_max_str_digits() to increase the limit").
Proof. vm_compute. repeat split. Qed.

(** C4, as stated, does not hold of the code: a content length that does not
    parse makes the derivation raise; the length of the body is not used. *)
Lemma calculate_sizes_unparseable_raises :
  spec_request_size bad_length_request = inr 5 /\
  _calculate_sizes bad_length_request not_found =
    inl (Raise ValueError "invalid literal for int() with base 10: 'abc'") /\
  forall response_size,
    _calculate_sizes bad_length_request not_found <>
      inr (5, response_size).
Proof. vm_compute. repeat split; discriminate. Qed.

(** C4, amended: the request size is the integer value of the
    content-length header when the header is present, not empty and parses
    as an integer; when the header is absent or empty the body is read and
    the request size is its length (an exception raised by reading the body
    is passed on); when the header is not empty and does not parse, the
    derivation raises [ValueError] and yields no size. *)
Theorem calculate_sizes_request_size (request : HttpRequest)
    (response : Response) :
  (forall cl n, META request !! "CONTENT_LENGTH" = Some cl ->
                cl <> "" ->
                parse_int cl = Some n ->
                exists response_size,
                  _calculate_sizes request response = inr (n, response_size)) /\
  (META request !! "CONTENT_LENGTH" = None \/
   META request !! "CONTENT_LENGTH" = Some "" ->
   (forall b, body request = inr b ->
              exists response_size,
                _calculate_sizes request response =
                  inr (len b, response_size)) /\
   (forall e, body request = inl e ->
              _calculate_sizes request response = inl e)) /\
  (forall cl, META request !! "CONTENT_LENGTH" = Some cl ->
              cl <> "" ->
              parse_int cl = None ->
              exists e, _calculate_sizes request response = inl e /\
                        exn_type e = ValueError).
Proof.
  unfold _calculate_sizes.
  destruct (response_size_returns response) as [rs Hrs].
  repeat split.
  - intros cl n -> Hne Hn. destruct cl as [|c cl]; [congruence|].
    cbn [str_truthy]. rewrite (int_parse_int _ _ Hn).
    exists rs. cbn. rewrite Hrs. reflexivity.
  - intros b Hb. exists rs.
    destruct H as [-> | ->]; cbn; rewrite Hb; cbn; rewrite Hrs; reflexivity.
  - intros e He.
    destruct H as [-> | ->]; cbn; rewrite He; reflexivity.
  - intros cl -> Hne Hn. destruct cl as [|c cl]; [congruence|].
    cbn [str_truthy]. destruct (int_not_parsed _ Hn) as (e & -> & He).
    exists e. split; [reflexivity | exact He].
Qed.

Lemma calculate_sizes_request_size_witness :
  META sized_request !! "CONTENT_LENGTH" = Some "42" /\
  "42" <> "" /\
  parse_int "42" = Some 42 /\
  exists response_size,
    _calculate_sizes sized_request not_found = inr (42, response_size).
Proof.
  split; [vm_compute; reflexivity|].
  split; [discriminate|].
  split; [reflexivity|].
  destruct (calculate_sizes_request_size sized_request not_found)
    as (H & _ & _).
  apply (H "42"); [vm_compute; reflexivity | discriminate | reflexivity].
Defined.

(** A request without content length whose body cannot be read: the
    derivation raises what the reading raised. *)
Lemma calculate_sizes_unreadable_body :
  exists e, body consumed_request = inl e /\
            _calculate_sizes consumed_request not_found = inl e.
Proof. eexists. split; reflexivity. Qed.

(** ** The error text *)

Lemma utf8_decode_ascii (bs : list N) :
  Forall (fun b => (b < 128)%N) bs -> utf8_decode bs = Some bs.
Proof.
  induction 1 as [|b bs Hb _ IH]; [reflexivity|].
  cbn [utf8_decode].
  replace (b <? 128)%N with true by (symmetry; now apply N.ltb_lt).
  rewrite IH. reflexivity.
Qed.

Section Utf8Facts.
Local Open Scope N_scope.

Ltac div_lia := zify; Z.to_euclidean_division_equations; lia.

Ltac decide_tests :=
  repeat match goal with
    | |- context [N.ltb ?a ?b] =>
        destruct (N.ltb_spec a b); try div_lia; cbn [andb]
    | |- context [N.leb ?a ?b] =>
        destruct (N.leb_spec a b); try div_lia; cbn [andb]
    | |- context [N.eqb ?a ?b] =>
        destruct (N.eqb_spec a b); try div_lia; cbn [andb]
    end.

Lemma utf8_decode_cons (b0 : N) (r0 : list N) :
  utf8_decode (b0 :: r0) =
    if b0 <? 0x80 then cons b0 <$> utf8_decode r0
    else if (0xC2 <=? b0) && (b0 <=? 0xDF) then
      match r0 with
      | b1 :: r1 =>
          if is_cont b1
          then cons ((b0 - 0xC0) * 64 + (b1 - 0x80)) <$> utf8_decode r1
          else None
      | _ => None
      end
    else if (0xE0 <=? b0) && (b0 <=? 0xEF) then
      match r0 with
      | b1 :: b2 :: r2 =>
          if second_ok b0 b1 && is_cont b2
          then cons ((b0 - 0xE0) * 4096 + (b1 - 0x80) * 64 + (b2 - 0x80))
                 <$> utf8_decode r2
          else None
      | _ => None
      end
    else if (0xF0 <=? b0) && (b0 <=? 0xF4) then
      match r0 with
      | b1 :: b2 :: b3 :: r3 =>
          if second_ok b0 b1 && is_cont b2 && is_cont b3
          then cons ((b0 - 0xF0) * 262144 + (b1 - 0x80) * 4096
                     + (b2 - 0x80) * 64 + (b3 - 0x80))
                 <$> utf8_decode r3
          else None
      | _ => None
      end
    else None.
Proof. reflexivity. Qed.

(** Decoding reads back one encoded scalar value. *)
Lemma utf8_decode_encode_char (cp : N) (rest : list N) :
  scalar_value cp ->
  utf8_decode (utf8_encode_char cp ++ rest) = cons cp <$> utf8_decode rest.
Proof.
  intros Hcp. unfold utf8_encode_char, scalar_value in *.
  destruct (N.ltb_spec cp 0x80) as [H1|H1];
    [|destruct (N.ltb_spec cp 0x800) as [H2|H2];
      [|destruct (N.ltb_spec cp 0x10000) as [H3|H3]]];
    cbn [app]; rewrite utf8_decode_cons; unfold second_ok, is_cont;
    generalize (utf8_decode rest); intros tail.
  - decide_tests; reflexivity.
  - decide_tests; do 2 f_equal; div_lia.
  - decide_tests; do 2 f_equal; div_lia.
  - decide_tests; do 2 f_equal; div_lia.
Qed.

(** Decoding is a left inverse of encoding. *)
Lemma utf8_decode_encode (text : unicode) :
  Forall scalar_value text -> utf8_decode (utf8_encode text) = Some text.
Proof.
  induction 1 as [|cp text Hcp _ IH]; [reflexivity|].
  unfold utf8_encode in *. cbn [map concat].
  rewrite utf8_decode_encode_char, IH by exact Hcp. reflexivity.
Qed.

End Utf8Facts.

(** The error text of a response that has a status and a body: it is empty
    when the status is below 400 (200 in particular); from 400 on it is the
    body of the response decoded as UTF-8, or the textual form of the body
    when the body is not valid UTF-8. *)
Theorem get_error_content_by_status (response : Response) (st : Z) :
  status_code response = inr st ->
  (st < 400 -> _get_error_content response = inr []) /\
  (st = 200 -> _get_error_content response = inr []) /\
  (forall b, 400 <= st -> content response = inr b ->
     _get_error_content response =
       inr (match utf8_decode (map Byte.to_N b) with
            | Some text => text
            | None => str_bytes b
            end)).
Proof.
  intros Hst. unfold _get_error_content. rewrite Hst. cbn [mbind Exc_bind].
  assert (Hlow : st < 400 ->
                 (if st >=? 400 then
                    try_except (c ← content response; decode_utf8 c)
                      [AttributeError; UnicodeDecodeError]
                      (fun _ => c ← content response; mret (str_bytes c))
                  else mret (str_to_unicode "")) = (inr [] : Exc unicode)).
  { intros H. destruct (Z.geb_spec st 400); [lia | reflexivity]. }
  split; [exact Hlow|]. split; [intros ->; apply Hlow; lia|].
  intros b Hhigh Hc.
  destruct (Z.geb_spec st 400); [|lia].
  rewrite Hc. cbn [mbind Exc_bind]. unfold decode_utf8.
  destruct (utf8_decode (map Byte.to_N b)); reflexivity.
Qed.

Lemma get_error_content_by_status_witness :
  status_code not_found = inr 404 /\
  content not_found = inr (list_byte_of_string "Error") /\
  _get_error_content not_found = inr (str_to_unicode "Error").
Proof.
  split; [reflexivity|]. split; [reflexivity|].
  destruct (get_error_content_by_status not_found 404 eq_refl) as (_ & _ & H).
  rewrite (H (list_byte_of_string "Error")); [reflexivity | lia | reflexivity].
Defined.

(** The error text of a response whose body is the encoding of a text is
    that text. *)
Lemma get_error_content_encoded (st : Z) (b : list byte) (text : unicode) :
  400 <= st ->
  Forall scalar_value text ->
  map Byte.to_N b = utf8_encode text ->
  _get_error_content (HttpResponse st b) = inr text.
Proof.
  intros Hst Htext Hb. unfold _get_error_content. cbn.
  destruct (Z.geb_spec st 400); [|lia].
  unfold decode_utf8. rewrite Hb, utf8_decode_encode by exact Htext.
  reflexivity.
Qed.

(** A body that is not valid UTF-8 is recorded in its textual form. *)
Lemma get_error_content_undecodable :
  _get_error_content (HttpResponse 500 [Byte.xff]) =
    inr (str_to_unicode "b'\xff'").
Proof. reflexivity. Qed.

(** A response without a body and with a status from 400 on has no error
    text: both the decoding and the fallback read the missing body. *)
Lemma get_error_content_streaming (st : Z) :
  400 <= st ->
  exists e, _get_error_content (StreamingHttpResponse st) = inl e /\
            exn_type e = AttributeError.
Proof.
  intros H. unfold _get_error_content. cbn.
  destruct (Z.geb_spec st 400); [|lia].
  eexists. split; reflexivity.
Qed.

(** C7 does not hold of the code: for a response that has no body and a
    status of 400 or more, no error text is derived.  Reading the missing
    body raises [AttributeError]; the [except] clause catches it and reads
    the missing body again, which raises anew.  The derivation of the
    sizes, next to it, asks whether the response has a body and yields 0.
    In the middleware the record of such a request is lost and an error
    line is logged in its place. *)
Theorem get_error_content_without_body_raises :
  status_code streaming_not_found = inr 404 /\
  _get_error_content streaming_not_found =
    inl (Raise AttributeError
           "This StreamingHttpResponse instance has no `content` attribute. Use `streaming_content` instead.") /\
  _calculate_sizes local_request streaming_not_found = inr (0, 0) /\
  exists s',
    __call__ seconds streaming_view local_request (sample_state [] 2)
    = (inr streaming_not_found, s') /\
    queue (logger s') = [] /\
    log s' =
      [{| levelname := ERROR;
          name := "numenor_monitor.middlewares";
          message := "Error in RequestLoggingMiddleware: This StreamingHttpResponse instance has no `content` attribute. Use `streaming_content` instead." |}].
Proof.
  split; [reflexivity|]. split; [reflexivity|].
  split; [vm_compute; reflexivity|].
  eexists. vm_compute. repeat split.
Qed.

(** ** Computations that return *)

Lemma returns_ret {A} (x : A) : returns (mret x).
Proof. intros s. exists x, s. reflexivity. Qed.

Lemma returns_bind {A B} (m : M A) (f : A -> M B) :
  returns m -> (forall x, returns (f x)) -> returns (m ≫= f).
Proof.
  intros Hm Hf s. destruct (Hm s) as (x & s1 & H1).
  destruct (Hf x s1) as (y & s2 & H2).
  exists y, s2. unfold mbind, M_bind. rewrite H1. exact H2.
Qed.

Lemma returns_state {A} (f : State -> A) (g : State -> State) :
  returns (fun s => (inr (f s), g s)).
Proof. intros s. eauto. Qed.

Lemma isinstance_Exception c : isinstance c Exception = true.
Proof. reflexivity. Qed.

Lemma len_app {A} (l k : list A) : len (l ++ k) = len l + len k.
Proof. unfold len. rewrite length_app. lia. Qed.

Lemma with_queue_id (lg : RequestLogger) : with_queue (queue lg) lg = lg.
Proof. destruct lg; reflexivity. Qed.

(** ** Enqueueing *)

(** [log_request] returns, and the queue is one item longer: the new item
    is the last. *)
Lemma log_request_enqueues (item : Fields) (s : State) :
  log_request (f_scheme item) (f_host item) (f_path item) (f_query item)
    (f_method item) (f_ip_address item) (f_user_agent item) (f_user item)
    (f_username item) (f_start_at item) (f_end_at item) (f_status_code item)
    (f_error item) (f_request_size item) (f_response_size item) s
  = (inr tt, with_logger (with_queue (queue (logger s) ++ [item]) (logger s)) s).
Proof. destruct item. reflexivity. Qed.

Section Logger.

Variable now_at : nat -> Z.
Variable sink_error : nat -> list RequestModel -> option exn.

(** ** Flushing a batch *)

Lemma flush_batch_run (batch : list RequestModel) (s : State) :
  _flush_batch now_at sink_error batch s =
    match sink_error (bulk_calls s) batch with
    | None =>
        (inr [],
         {| logger := with_last_flush (now_at (clock s)) (logger s);
            database := database s ++ [batch];
            bulk_calls := S (bulk_calls s);
            clock := S (clock s);
            log := log s |})
    | Some e =>
        (inr [],
         {| logger := logger s;
            database := database s;
            bulk_calls := S (bulk_calls s);
            clock := clock s;
            log := log s ++
                   [{| levelname := ERROR;
                       name := "numenor_monitor.middlewares";
                       message := "Error bulk creating records: " +:+ exn_str e |}] |})
    end.
Proof.
  unfold _flush_batch, try_except_M, mbind, M_bind, bulk_create.
  destruct (sink_error (bulk_calls s) batch) as [e|]; reflexivity.
Qed.

(** C2: a flush leaves the batch empty whether the bulk insert succeeds or
    raises; the insert is attempted once, nothing goes back on the queue,
    and a batch whose insert raised is not in the database: it is dropped,
    with one error line in the log. *)
Theorem flush_batch_clears (batch : list RequestModel) (s : State) :
  exists s',
    _flush_batch now_at sink_error batch s = (inr [], s') /\
    bulk_calls s' = S (bulk_calls s) /\
    queue (logger s') = queue (logger s) /\
    database s' =
      match sink_error (bulk_calls s) batch with
      | None => database s ++ [batch]
      | Some _ => database s
      end /\
    log s' =
      match sink_error (bulk_calls s) batch with
      | None => log s
      | Some e =>
          log s ++
          [{| levelname := ERROR;
              name := "numenor_monitor.middlewares";
              message := "Error bulk creating records: " +:+ exn_str e |}]
      end.
Proof.
  rewrite flush_batch_run.
  destruct (sink_error (bulk_calls s) batch); eexists; repeat split.
Qed.

(** C9: a flush whose bulk insert raises leaves the time of the last flush
    as it was, and one whose bulk insert succeeds sets it to the current
    time; the batch size, the flush interval, the queue and the worker flag
    of the logger are as before in both cases. *)
Theorem flush_batch_last_flush (batch : list RequestModel) (s : State) :
  exists s',
    _flush_batch now_at sink_error batch s = (inr [], s') /\
    last_flush (logger s') =
      match sink_error (bulk_calls s) batch with
      | None => now_at (clock s)
      | Some _ => last_flush (logger s)
      end /\
    batch_size (logger s') = batch_size (logger s) /\
    flush_interval (logger s') = flush_interval (logger s) /\
    queue (logger s') = queue (logger s) /\
    thread (logger s') = thread (logger s).
Proof.
  rewrite flush_batch_run.
  destruct (sink_error (bulk_calls s) batch); eexists; repeat split.
Qed.

Lemma flush_batch_returns (batch : list RequestModel) :
  returns (_flush_batch now_at sink_error batch).
Proof.
  intros s. rewrite flush_batch_run.
  destruct (sink_error (bulk_calls s) batch); eauto.
Qed.

(** The worker's turn never raises: an insert that raises is absorbed by the
    flush. *)
Lemma process_queue_iteration_returns (batch : list RequestModel) :
  returns (_process_queue_iteration now_at sink_error batch).
Proof.
  unfold _process_queue_iteration.
  apply returns_bind; [apply returns_state|]. intros self.
  apply returns_bind.
  - destruct (queue self) as [|item pending']; [apply returns_ret|].
    apply returns_bind; [apply returns_state|]. intros _.
    destruct (len (batch ++ [Request item]) >=? batch_size self);
      [apply flush_batch_returns | apply returns_ret].
  - intros [|x b]; [apply returns_ret|].
    apply returns_bind; [apply returns_state|]. intros now.
    apply returns_bind; [apply returns_state|]. intros self'.
    destruct (now - last_flush self' >? flush_interval self');
      [apply flush_batch_returns | apply returns_ret].
Qed.

(** ** The synchronous drain *)

(** The loop of the drain when no insert raises: it inserts full batches
    only, leaves fewer records than a batch in hand, and loses and reorders
    nothing. *)
Lemma process_batch_loop_reliable :
  reliable sink_error ->
  forall (pending : list Fields) (batch : list RequestModel) (s : State),
    queue (logger s) = pending ->
    len batch < batch_size (logger s) ->
    exists calls batch',
      process_batch_loop sink_error pending batch s =
        (inr batch',
         {| logger := with_queue [] (logger s);
            database := database s ++ calls;
            bulk_calls := bulk_calls s + length calls;
            clock := clock s;
            log := log s |}) /\
      Forall (fun c => len c = batch_size (logger s)) calls /\
      len batch' < batch_size (logger s) /\
      concat calls ++ batch' = batch ++ map Request pending.
Proof.
  intros Hrel pending.
  induction pending as [|item pending' IH]; intros batch s Hq Hlen.
  - exists [], batch. cbn [process_batch_loop].
    repeat split; [|constructor|exact Hlen|now rewrite app_nil_r].
    unfold mret, M_ret. f_equal.
    destruct s as [lg db n c lo]; cbn in *.
    rewrite app_nil_r, Nat.add_0_r, <- Hq, with_queue_id. reflexivity.
  - cbn [process_batch_loop].
    unfold mbind, M_bind, get_logger, set_logger; cbn [fst snd].
    set (s1 := with_logger (with_queue pending' (logger s)) s).
    assert (Hlen1 : len (batch ++ [Request item]) = len batch + 1)
      by (rewrite len_app; reflexivity).
    destruct (Z.geb_spec (len (batch ++ [Request item]))
                (batch_size (logger s))) as [Hfull|Hroom].
    + unfold bulk_create. rewrite Hrel.
      match goal with
      | |- context [process_batch_loop _ _ [] ?t] => set (s2 := t)
      end.
      destruct (IH [] s2) as (calls & batch' & Hrun & Hall & Hlt & Hcat).
      { reflexivity. }
      { cbn. unfold len in *. cbn. lia. }
      exists ((batch ++ [Request item]) :: calls), batch'.
      rewrite Hrun. subst s2 s1. cbn.
      repeat split.
      * f_equal. f_equal; [now rewrite <- app_assoc | lia].
      * constructor; [lia | exact Hall].
      * exact Hlt.
      * cbn in Hcat. rewrite <- !app_assoc, Hcat. reflexivity.
    + destruct (IH (batch ++ [Request item]) s1)
        as (calls & batch' & Hrun & Hall & Hlt & Hcat).
      { reflexivity. }
      { cbn. lia. }
      exists calls, batch'. rewrite Hrun. subst s1. cbn.
      repeat split; [exact Hall | exact Hlt |].
      rewrite Hcat, <- app_assoc. reflexivity.
Qed.

(** C1: with a batch size B > 0 and a sink that does not raise, the drain of
    a queue of N items returns after ceil(N/B) bulk inserts which together
    hold the N records in queue order; every insert but the last holds B
    records and the last holds N mod B records, or B when B divides N. *)
Theorem process_batch_splits (s : State) :
  0 < batch_size (logger s) ->
  reliable sink_error ->
  let N := length (queue (logger s)) in
  let B := Z.to_nat (batch_size (logger s)) in
  exists calls s',
    process_batch sink_error s = (inr tt, s') /\
    database s' = database s ++ calls /\
    bulk_calls s' = (bulk_calls s + length calls)%nat /\
    queue (logger s') = [] /\
    concat calls = map Request (queue (logger s)) /\
    length (concat calls) = N /\
    length calls = ((N + B - 1) / B)%nat /\
    (forall i c, calls !! i = Some c -> (S i < length calls)%nat ->
                 length c = B) /\
    (forall c, last calls = Some c ->
               length c = if (N mod B =? 0)%nat then B else (N mod B)%nat).
Proof.
  intros HB Hrel N B.
  destruct (process_batch_loop_reliable Hrel (queue (logger s)) [] s eq_refl)
    as (calls & batch' & Hrun & Hall & Hlt & Hcat).
  { unfold len. cbn. lia. }
  assert (HBpos : (0 < B)%nat) by (subst B; lia).
  assert (Hall' : Forall (fun c => length c = B) calls).
  { eapply Forall_impl; [exact Hall|]. intros c Hc. unfold len in Hc.
    subst B. lia. }
  assert (Hsum : length (concat calls) = (B * length calls)%nat).
  { clear -Hall'. induction Hall' as [|c calls Hc _ IH]; cbn; [lia|].
    rewrite length_app, IH, Hc. lia. }
  assert (HN : N = (B * length calls + length batch')%nat).
  { subst N. rewrite <- Hsum, <- length_app, Hcat. cbn.
    now rewrite length_map. }
  assert (Hrem : (length batch' < B)%nat) by (unfold len in Hlt; subst B; lia).
  assert (Hdiv : (N / B)%nat = length calls)
    by (symmetry; apply (Nat.div_unique N B _ (length batch')); lia).
  assert (Hmod : (N mod B)%nat = length batch')
    by (symmetry; apply (Nat.mod_unique N B (length calls)); lia).
  unfold process_batch, mbind, M_bind, get_logger. rewrite Hrun.
  destruct batch' as [|r batch'].
  - exists calls. eexists. split; [reflexivity|]. cbn.
    rewrite app_nil_r in Hcat. cbn in Hcat, Hmod, HN.
    repeat split; [exact Hcat | | | | ].
    + rewrite Hcat, length_map. reflexivity.
    + apply (Nat.div_unique _ B _ (B - 1)%nat); lia.
    + intros i c Hi _. eapply Forall_lookup_1 in Hi; [|exact Hall']. exact Hi.
    + intros c Hc. rewrite Hmod. cbn.
      apply last_Some_elem_of in Hc.
      rewrite Forall_forall in Hall'. now apply Hall'.
  - exists (calls ++ [r :: batch']). unfold bulk_create. rewrite Hrel.
    eexists. split; [reflexivity|]. cbn.
    assert (Hcat' : concat (calls ++ [r :: batch'])
                    = map Request (queue (logger s))).
    { rewrite concat_app. cbn. rewrite app_nil_r. exact Hcat. }
    repeat split.
    + now rewrite app_assoc.
    + rewrite length_app. cbn. lia.
    + exact Hcat'.
    + rewrite Hcat', length_map. reflexivity.
    + rewrite length_app. cbn.
      apply (Nat.div_unique _ B _ (length batch')); cbn in *; lia.
    + intros i c Hi Hlast. rewrite length_app in Hlast. cbn in Hlast.
      rewrite lookup_app_l in Hi by lia.
      eapply Forall_lookup_1 in Hi; [|exact Hall']. exact Hi.
    + intros c Hc. rewrite last_snoc in Hc. injection Hc as <-.
      rewrite Hmod. cbn. reflexivity.
Qed.

End Logger.

Lemma process_batch_splits_witness :
  0 < batch_size (logger (sample_state three_items 2)) /\
  reliable no_error /\
  exists calls s',
    process_batch no_error (sample_state three_items 2) = (inr tt, s') /\
    database s' = calls /\
    length calls = 2%nat /\
    concat calls = map Request three_items.
Proof.
  assert (Hsize : 0 < batch_size (logger (sample_state three_items 2)))
    by (cbn; lia).
  assert (Hrel : reliable no_error) by (intros k b; reflexivity).
  split; [exact Hsize|]. split; [exact Hrel|].
  destruct (process_batch_splits no_error (sample_state three_items 2)
              Hsize Hrel)
    as (calls & s' & Hrun & Hdb & _ & _ & Hcat & _ & Hlen & _).
  exists calls, s'. repeat split; [exact Hrun | exact Hdb | exact Hlen | exact Hcat].
Defined.

(** C8 does not hold of the code: an insert that raises during the drain
    reaches the caller, and the items not yet taken stay on the queue,
    neither persisted nor dropped. *)
Theorem process_batch_failure_escapes :
  exists s',
    process_batch db_error (sample_state three_items 2)
    = (inl (Raise Exception "DB error"), s') /\
    queue (logger s') = [sample_item 3] /\
    database s' = [] /\
    log s' = [].
Proof. eexists. vm_compute. repeat split. Qed.

(** ** The middleware *)

Section Middleware.

Variable now_at : nat -> Z.

Lemma capture_raises_state (request : HttpRequest) (response : Response)
    (start_at : Z) (s1 s2 : State) (e : exn) :
  capture now_at request response start_at s1 = (inl e, s2) ->
  s2 = snd (timezone_now now_at s1).
Proof.
  unfold capture, mbind, M_bind, lift, timezone_now. cbn [fst snd].
  destruct (status_code response) as [e1|st]; [now inversion 1|].
  destruct (_calculate_sizes request response) as [e2|[rq rs]];
    [now inversion 1|].
  destruct (_get_error_content response) as [e3|err]; [now inversion 1|].
  destruct (_get_user_info request) as [u un].
  destruct (get_host request) as [e4|host]; [now inversion 1|].
  discriminate.
Qed.

(** C5: when the handler raises, the call raises the same exception and the
    state is the one the handler left: nothing is put on the queue and
    nothing is logged. *)
Theorem call_reraises (self : RequestLoggingMiddleware)
    (request : HttpRequest) (s s1 : State) (e : exn) :
  get_response self request (snd (timezone_now now_at s)) = (inl e, s1) ->
  __call__ now_at self request s = (inl e, s1) /\
  forall r s', __call__ now_at self request s = (r, s') ->
               r = inl e /\ queue (logger s') = queue (logger s1) /\
               log s' = log s1.
Proof.
  intros H.
  assert (Hrun : __call__ now_at self request s = (inl e, s1)).
  { unfold __call__, mbind, M_bind. unfold timezone_now in *.
    cbn [fst snd] in *. rewrite H. reflexivity. }
  split; [exact Hrun|]. intros r s' Hr. rewrite Hrun in Hr.
  injection Hr as <- <-. auto.
Qed.

(** C6: when the handler returned a response and the derivation or the
    enqueueing of the record raises, the call returns that response, one
    line of severity ERROR that reads "Error in RequestLoggingMiddleware: "
    followed by the text of the exception is logged, and nothing is put on
    the queue. *)
Theorem call_survives_capture_failure (self : RequestLoggingMiddleware)
    (request : HttpRequest) (response : Response) (s s1 s2 : State)
    (e : exn) :
  get_response self request (snd (timezone_now now_at s))
    = (inr response, s1) ->
  capture now_at request response (now_at (clock s)) s1 = (inl e, s2) ->
  exists s',
    __call__ now_at self request s = (inr response, s') /\
    log s' = log s1 ++
             [{| levelname := ERROR;
                 name := "numenor_monitor.middlewares";
                 message := "Error in RequestLoggingMiddleware: " +:+ exn_str e |}] /\
    queue (logger s') = queue (logger s1) /\
    database s' = database s1.
Proof.
  intros Hh Hc.
  pose proof (capture_raises_state _ _ _ _ _ _ Hc) as ->.
  unfold __call__, mbind, M_bind, try_except_M.
  unfold timezone_now at 1. unfold timezone_now at 1 in Hh.
  cbn [fst snd] in *. rewrite Hh, Hc.
  cbn [existsb]. rewrite isinstance_Exception. cbn [orb].
  eexists. split; [reflexivity|]. repeat split.
Qed.

(** When the handler returns, so does the call, with the handler's
    response. *)
Lemma call_returns_response (self : RequestLoggingMiddleware)
    (request : HttpRequest) (response : Response) (s s1 : State) :
  get_response self request (snd (timezone_now now_at s))
    = (inr response, s1) ->
  exists s', __call__ now_at self request s = (inr response, s').
Proof.
  intros Hh. unfold __call__, mbind, M_bind, try_except_M.
  unfold timezone_now at 1. unfold timezone_now at 1 in Hh.
  cbn [fst snd] in *. rewrite Hh.
  destruct (capture now_at request response (now_at (clock s)) s1)
    as [[e|[]] s2]; [|eauto].
  cbn [existsb]. rewrite isinstance_Exception. cbn [orb]. eauto.
Qed.

End Middleware.

Lemma call_reraises_witness :
  get_response failing_view (request_with ∅ [])
    (snd (timezone_now seconds (sample_state [] 2)))
  = (inl (Raise Exception "Internal server error"),
     snd (timezone_now seconds (sample_state [] 2))) /\
  __call__ seconds failing_view (request_with ∅ []) (sample_state [] 2) =
    (inl (Raise Exception "Internal server error"),
     snd (timezone_now seconds (sample_state [] 2))).
Proof.
  split; [reflexivity|].
  apply (call_reraises seconds failing_view (request_with ∅ [])
           (sample_state [] 2)).
  reflexivity.
Defined.

Lemma call_survives_capture_failure_witness :
  capture seconds bad_length_request not_found 0
    (snd (timezone_now seconds (sample_state [] 2)))
  = (inl (Raise ValueError "invalid literal for int() with base 10: 'abc'"),
     snd (timezone_now seconds
            (snd (timezone_now seconds (sample_state [] 2))))) /\
  exists s',
    __call__ seconds not_found_view bad_length_request (sample_state [] 2)
    = (inr not_found, s') /\
    log s' =
      [{| levelname := ERROR;
          name := "numenor_monitor.middlewares";
          message := "Error in RequestLoggingMiddleware: invalid literal for int() with base 10: 'abc'" |}].
Proof.
  assert (Hc : capture seconds bad_length_request not_found 0
                 (snd (timezone_now seconds (sample_state [] 2)))
               = (inl (Raise ValueError
                         "invalid literal for int() with base 10: 'abc'"),
                  snd (timezone_now seconds
                         (snd (timezone_now seconds (sample_state [] 2))))))
    by (vm_compute; reflexivity).
  split; [exact Hc|].
  destruct (call_survives_capture_failure seconds not_found_view
              bad_length_request not_found (sample_state [] 2) _ _ _
              eq_refl Hc)
    as (s' & Hrun & Hlog & _).
  exists s'. split; [exact Hrun | exact Hlog].
Defined.

(** * Further properties *)

(** ** Computations that return with a postcondition *)

Lemma ensures_ret {A} (x : A) (s : State) (Q : A -> State -> Prop) :
  Q x s -> ensures (mret x) s Q.
Proof. intros H. exists x, s. split; [reflexivity | exact H]. Qed.

Lemma ensures_bind {A B} (m : M A) (f : A -> M B) (s : State)
    (Q : B -> State -> Prop) :
  ensures m s (fun x s1 => ensures (f x) s1 Q) -> ensures (m ≫= f) s Q.
Proof.
  intros (x & s1 & Hm & y & s2 & Hf & HQ).
  exists y, s2. split; [|exact HQ].
  unfold mbind, M_bind. rewrite Hm. exact Hf.
Qed.

Lemma ensures_weaken {A} (m : M A) (s : State) (Q Q' : A -> State -> Prop) :
  ensures m s Q -> (forall x s', Q x s' -> Q' x s') -> ensures m s Q'.
Proof. intros (x & s' & Hm & HQ) H. exists x, s'. auto. Qed.

Lemma ensures_state {A} (f : State -> A) (g : State -> State) (s : State)
    (Q : A -> State -> Prop) :
  Q (f s) (g s) -> ensures (fun s => (inr (f s), g s)) s Q.
Proof. intros H. exists (f s), (g s). auto. Qed.

(** ** Enqueueing and draining *)

Lemma log_each_run (items : list Fields) (s : State) :
  log_each items s =
    (inr tt,
     with_logger (with_queue (queue (logger s) ++ items) (logger s)) s).
Proof.
  revert s. induction items as [|item items IH]; intros s.
  - cbn. unfold mret, M_ret. f_equal.
    rewrite app_nil_r, with_queue_id. destruct s; reflexivity.
  - cbn [log_each]. unfold mbind, M_bind.
    rewrite log_request_enqueues, IH. cbn.
    rewrite <- app_assoc. reflexivity.
Qed.

Section Drain.

Variable sink_error : nat -> list RequestModel -> option exn.

Lemma ensures_bulk_create (batch : list RequestModel) (s : State)
    (Q : unit -> State -> Prop) :
  sink_error (bulk_calls s) batch = None ->
  Q tt {| logger := logger s; database := database s ++ [batch];
          bulk_calls := S (bulk_calls s); clock := clock s; log := log s |} ->
  ensures (bulk_create sink_error batch) s Q.
Proof.
  intros Hok HQ. unfold ensures, bulk_create. rewrite Hok. eauto.
Qed.

Lemma persisted_insert (s : State) (batch : list RequestModel) lg n c lo :
  persisted {| logger := lg; database := database s ++ [batch];
               bulk_calls := n; clock := c; log := lo |}
  = persisted s ++ batch.
Proof. unfold persisted. cbn. rewrite concat_app. cbn. now rewrite app_nil_r. Qed.

(** The loop of the drain, whatever the batch size, when no insert raises. *)
Lemma process_batch_loop_persists :
  reliable sink_error ->
  forall (pending : list Fields) (batch : list RequestModel) (s : State),
    queue (logger s) = pending ->
    ensures (process_batch_loop sink_error pending batch) s
      (fun batch' s' =>
         persisted s' ++ batch' = persisted s ++ batch ++ map Request pending /\
         queue (logger s') = [] /\
         same_settings s s').
Proof.
  intros Hrel pending.
  induction pending as [|item pending' IH]; intros batch s Hq.
  - apply ensures_ret. rewrite app_nil_r. unfold same_settings. auto 10.
  - cbn [process_batch_loop].
    apply ensures_bind, ensures_state.
    apply ensures_bind, ensures_state.
    set (s1 := with_logger (with_queue pending' (logger s)) s).
    destruct (len (batch ++ [Request item]) >=? batch_size (logger s)).
    + apply ensures_bind, ensures_bulk_create; [apply Hrel|].
      eapply ensures_weaken; [apply IH; reflexivity|].
      cbn beta. intros batch' s' (Hp & Hqe & Hset).
      rewrite persisted_insert in Hp.
      split; [|split; [exact Hqe | exact Hset]].
      rewrite Hp. cbn. now rewrite <- !app_assoc.
    + eapply ensures_weaken; [apply (IH _ s1); reflexivity|].
      cbn beta. intros batch' s' (Hp & Hqe & Hset).
      split; [|split; [exact Hqe | exact Hset]].
      rewrite Hp. cbn. now rewrite <- !app_assoc.
Qed.

Lemma process_batch_persists :
  reliable sink_error ->
  forall s : State,
    ensures (process_batch sink_error) s
      (fun _ s' =>
         persisted s' = persisted s ++ map Request (queue (logger s)) /\
         queue (logger s') = [] /\
         same_settings s s').
Proof.
  intros Hrel s. unfold process_batch.
  apply ensures_bind, ensures_state.
  apply ensures_bind.
  eapply ensures_weaken;
    [apply (process_batch_loop_persists Hrel (queue (logger s)) [] s eq_refl)|].
  cbn beta. intros [|r batch'] s1 (Hp & Hq & Hset).
  - apply ensures_ret. rewrite app_nil_r in Hp. auto.
  - apply ensures_bulk_create; [apply Hrel|].
    rewrite persisted_insert. split; [exact Hp|]. split; [exact Hq|].
    exact Hset.
Qed.

(** X1: whatever the batch size, when no insert raises, the records that
    were logged are the records that the drain persists, in the order of
    the calls and after those that were pending; the queue ends empty. *)
Theorem logged_requests_are_persisted (items : list Fields) (s : State) :
  reliable sink_error ->
  ensures (log_each items;; process_batch sink_error) s
    (fun _ s' =>
       persisted s' =
         persisted s ++ map Request (queue (logger s) ++ items) /\
       queue (logger s') = [] /\
       same_settings s s').
Proof.
  intros Hrel. apply ensures_bind.
  exists tt. eexists. split; [apply log_each_run|].
  eapply ensures_weaken; [apply (process_batch_persists Hrel)|].
  cbn beta. intros _ s' H. exact H.
Qed.

End Drain.

Lemma logged_requests_are_persisted_witness :
  reliable no_error /\
  ensures (log_each three_items;; process_batch no_error) (sample_state [] 0)
    (fun _ s' => persisted s' = map Request three_items /\
                 queue (logger s') = []).
Proof.
  assert (Hrel : reliable no_error) by (intros k b; reflexivity).
  split; [exact Hrel|].
  eapply ensures_weaken;
    [apply (logged_requests_are_persisted no_error three_items
              (sample_state [] 0) Hrel)|].
  cbn beta. intros _ s' (Hp & Hq & _). split; [exact Hp | exact Hq].
Defined.

Section DrainEdges.

Variable sink_error : nat -> list RequestModel -> option exn.

Lemma process_batch_loop_singletons :
  reliable sink_error ->
  forall (pending : list Fields) (s : State),
    batch_size (logger s) <= 1 ->
    ensures (process_batch_loop sink_error pending []) s
      (fun batch' s' =>
         batch' = [] /\
         database s' =
           database s ++ map (fun item => [Request item]) pending /\
         bulk_calls s' = (bulk_calls s + length pending)%nat).
Proof.
  intros Hrel pending.
  induction pending as [|item pending' IH]; intros s Hsize.
  - apply ensures_ret. rewrite app_nil_r, Nat.add_0_r. auto.
  - cbn [process_batch_loop].
    apply ensures_bind, ensures_state.
    apply ensures_bind, ensures_state.
    destruct (Z.geb_spec (len ([] ++ [Request item])) (batch_size (logger s)))
      as [_|Hlt]; [|unfold len in Hlt; cbn [app length] in Hlt; lia].
    apply ensures_bind, ensures_bulk_create; [apply Hrel|].
    eapply ensures_weaken; [apply IH; exact Hsize|].
    cbn. intros batch' s' (-> & Hdb & Hn).
    split; [reflexivity|]. rewrite Hdb, Hn, <- app_assoc.
    split; [reflexivity | lia].
Qed.

(** X2: with a batch size of 1 or less (0 and negative sizes included) and
    a sink that does not raise, the drain inserts every queued record in a
    bulk insert of its own, in queue order. *)
Theorem process_batch_one_by_one (s : State) :
  batch_size (logger s) <= 1 ->
  reliable sink_error ->
  ensures (process_batch sink_error) s
    (fun _ s' =>
       database s' =
         database s ++ map (fun item => [Request item]) (queue (logger s)) /\
       bulk_calls s' = (bulk_calls s + length (queue (logger s)))%nat).
Proof.
  intros Hsize Hrel. unfold process_batch.
  apply ensures_bind, ensures_state.
  apply ensures_bind.
  eapply ensures_weaken;
    [apply (process_batch_loop_singletons Hrel _ s Hsize)|].
  cbn beta. intros batch' s' (-> & Hdb & Hn).
  apply ensures_ret. auto.
Qed.

(** The loop of the drain, whatever the sink does. *)
Lemma process_batch_loop_outcome :
  forall (pending : list Fields) (batch : list RequestModel) (s s' : State)
         (r : Exc (list RequestModel)),
    queue (logger s) = pending ->
    process_batch_loop sink_error pending batch s = (r, s') ->
    same_settings s s' /\
    (exists calls, database s' = database s ++ calls) /\
    (exists taken, pending = taken ++ queue (logger s')) /\
    match r with
    | inr _ => queue (logger s') = []
    | inl e => exists k b, sink_error k b = Some e
    end.
Proof.
  induction pending as [|item pending' IH]; intros batch s s' r Hq Hrun.
  - cbn in Hrun. injection Hrun as <- <-.
    split; [unfold same_settings; auto 10|].
    split; [exists []; now rewrite app_nil_r|].
    split; [exists []; now rewrite Hq | exact Hq].
  - cbn [process_batch_loop] in Hrun.
    unfold mbind at 1, M_bind at 1, get_logger in Hrun.
    unfold mbind at 1, M_bind at 1, set_logger in Hrun.
    set (s1 := with_logger (with_queue pending' (logger s)) s) in Hrun.
    destruct (len (batch ++ [Request item]) >=? batch_size (logger s)).
    + unfold mbind at 1, M_bind at 1, bulk_create in Hrun.
      destruct (sink_error (bulk_calls s1) (batch ++ [Request item]))
        as [e|] eqn:Hsink.
      * injection Hrun as <- <-.
        split; [unfold same_settings; cbn; auto 10|].
        split; [exists []; cbn; now rewrite app_nil_r|].
        split; [exists [item]; reflexivity | eauto].
      * apply IH in Hrun; [|reflexivity].
        destruct Hrun as (Hset & (calls & Hdb) & (taken & Htaken) & Hr).
        split; [exact Hset|].
        split; [exists ((batch ++ [Request item]) :: calls);
                rewrite Hdb; cbn; now rewrite <- app_assoc|].
        split; [exists (item :: taken); cbn; now rewrite <- Htaken | exact Hr].
    + apply IH in Hrun; [|reflexivity].
      destruct Hrun as (Hset & Hdb & (taken & Htaken) & Hr).
      split; [exact Hset|]. split; [exact Hdb|].
      split; [exists (item :: taken); cbn; now rewrite <- Htaken | exact Hr].
Qed.

Lemma process_batch_outcome (s s' : State) (r : Exc unit) :
  process_batch sink_error s = (r, s') ->
  same_settings s s' /\
  (exists calls, database s' = database s ++ calls) /\
  (exists taken, queue (logger s) = taken ++ queue (logger s')) /\
  match r with
  | inr _ => queue (logger s') = []
  | inl e => exists k b, sink_error k b = Some e
  end.
Proof.
  unfold process_batch. unfold mbind at 1, M_bind at 1, get_logger.
  unfold mbind at 1, M_bind at 1.
  destruct (process_batch_loop sink_error (queue (logger s)) [] s)
    as [[e|batch] s1] eqn:Hloop;
    apply process_batch_loop_outcome in Hloop; try reflexivity;
    destruct Hloop as (Hset & (calls & Hdb) & Htaken & Hr).
  - intros [= <- <-]. eauto 10.
  - destruct batch as [|x batch].
    + intros [= <- <-]. eauto 10.
    + unfold bulk_create.
      destruct (sink_error (bulk_calls s1) (x :: batch)) as [e|] eqn:Hsink;
        intros [= <- <-]; cbn.
      * split; [exact Hset|]. split; [eauto|]. split; [exact Htaken|]. eauto.
      * split; [exact Hset|].
        split; [exists (calls ++ [x :: batch]); rewrite Hdb;
                now rewrite <- app_assoc|].
        split; [exact Htaken | exact Hr].
Qed.

(** X3: whatever the sink does and however the drain ends, it leaves the
    batch size, the flush interval, the time of the last flush and the
    worker flag of the logger as they were, reads no clock and logs nothing;
    the batches already in the database stay, and what is left of the queue
    is an end of the former queue. *)
Theorem process_batch_frame (s s' : State) (r : Exc unit) :
  process_batch sink_error s = (r, s') ->
  same_settings s s' /\
  (exists calls, database s' = database s ++ calls) /\
  (exists taken, queue (logger s) = taken ++ queue (logger s')).
Proof.
  intros H. apply process_batch_outcome in H.
  destruct H as (Hset & Hdb & Htaken & _). auto.
Qed.

(** X4: the drain returns only with an empty queue, and raises only what a
    bulk insert raised; with nothing queued it returns at once, without an
    insert and without any change of state, even when the sink is down. *)
Theorem process_batch_ends (s : State) :
  (forall s', process_batch sink_error s = (inr tt, s') ->
              queue (logger s') = []) /\
  (forall e s', process_batch sink_error s = (inl e, s') ->
                exists k batch, sink_error k batch = Some e) /\
  (queue (logger s) = [] -> process_batch sink_error s = (inr tt, s)).
Proof.
  repeat split.
  - intros s' H. apply process_batch_outcome in H. tauto.
  - intros e s' H. apply process_batch_outcome in H. tauto.
  - intros Hq. unfold process_batch, mbind, M_bind, get_logger.
    rewrite Hq. reflexivity.
Qed.

End DrainEdges.

Lemma process_batch_one_by_one_witness :
  batch_size (logger (sample_state three_items 0)) <= 1 /\
  reliable no_error /\
  ensures (process_batch no_error) (sample_state three_items 0)
    (fun _ s' =>
       database s' = [[Request (sample_item 1)]; [Request (sample_item 2)];
                      [Request (sample_item 3)]]).
Proof.
  assert (Hsize : batch_size (logger (sample_state three_items 0)) <= 1)
    by (cbn; lia).
  assert (Hrel : reliable no_error) by (intros k b; reflexivity).
  split; [exact Hsize|]. split; [exact Hrel|].
  eapply ensures_weaken;
    [apply (process_batch_one_by_one no_error _ Hsize Hrel)|].
  cbn beta. intros _ s' (Hdb & _). exact Hdb.
Defined.

Lemma process_batch_frame_witness :
  process_batch db_error (sample_state three_items 2)
  = (inl (Raise Exception "DB error"),
     snd (process_batch db_error (sample_state three_items 2))) /\
  same_settings (sample_state three_items 2)
    (snd (process_batch db_error (sample_state three_items 2))).
Proof.
  assert (H : process_batch db_error (sample_state three_items 2)
              = (inl (Raise Exception "DB error"),
                 snd (process_batch db_error (sample_state three_items 2))))
    by (vm_compute; reflexivity).
  split; [exact H|].
  destruct (process_batch_frame db_error _ _ _ H) as (Hset & _). exact Hset.
Defined.

Lemma process_batch_ends_witness :
  queue (logger (sample_state [] 2)) = [] /\
  process_batch db_error (sample_state [] 2) = (inr tt, sample_state [] 2).
Proof.
  split; [reflexivity|].
  destruct (process_batch_ends db_error (sample_state [] 2)) as (_ & _ & H).
  apply H. reflexivity.
Defined.

(** ** The worker *)

Section Worker.

Variable now_at : nat -> Z.
Variable sink_error : nat -> list RequestModel -> option exn.

(** What a flush does to the state, whatever the sink does. *)
Lemma flush_batch_effect (batch : list RequestModel) (s : State)
    (Q : list RequestModel -> State -> Prop) :
  (forall s',
     queue (logger s') = queue (logger s) ->
     batch_size (logger s') = batch_size (logger s) ->
     flush_interval (logger s') = flush_interval (logger s) ->
     thread (logger s') = thread (logger s) ->
     (reliable sink_error ->
      persisted s' = persisted s ++ batch /\ log s' = log s) ->
     Q [] s') ->
  ensures (_flush_batch now_at sink_error batch) s Q.
Proof.
  intros HQ. unfold ensures. rewrite flush_batch_run.
  destruct (sink_error (bulk_calls s) batch) as [e|] eqn:Hsink;
    eexists _, _; (split; [reflexivity|]); apply HQ; try reflexivity.
  - intros Hrel. rewrite Hrel in Hsink. discriminate.
  - intros _. rewrite persisted_insert. auto.
Qed.

(** The check of the flush interval at the end of a turn. *)
Lemma time_check_effect (batch : list RequestModel) (s : State)
    (Q : list RequestModel -> State -> Prop) :
  (forall batch' s',
     (batch' = [] \/ batch' = batch) ->
     queue (logger s') = queue (logger s) ->
     batch_size (logger s') = batch_size (logger s) ->
     flush_interval (logger s') = flush_interval (logger s) ->
     thread (logger s') = thread (logger s) ->
     (reliable sink_error ->
      persisted s' ++ batch' = persisted s ++ batch /\ log s' = log s) ->
     Q batch' s') ->
  ensures
    (match batch with
     | _ :: _ =>
         now ← timezone_now now_at;
         self ← get_logger;
         if now - last_flush self >? flush_interval self
         then _flush_batch now_at sink_error batch
         else mret batch
     | [] => mret batch
     end) s Q.
Proof.
  intros HQ. destruct batch as [|x batch].
  - apply ensures_ret. apply HQ; auto.
  - apply ensures_bind, ensures_state.
    apply ensures_bind, ensures_state.
    match goal with |- context [if ?c then _ else _] => destruct c end.
    + apply flush_batch_effect. intros s' Hq Hb Hf Ht Hp.
      apply HQ; auto.
      intros Hrel. destruct (Hp Hrel) as [Hp1 Hp2].
      rewrite app_nil_r. auto.
    + apply ensures_ret. apply HQ; auto.
Qed.

(** One turn of the worker, whatever the sink does. *)
Lemma process_queue_iteration_effect (batch : list RequestModel) (s : State) :
  0 < batch_size (logger s) ->
  len batch < batch_size (logger s) ->
  ensures (_process_queue_iteration now_at sink_error batch) s
    (fun batch' s' =>
       len batch' < batch_size (logger s') /\
       queue (logger s') = drop 1 (queue (logger s)) /\
       batch_size (logger s') = batch_size (logger s) /\
       flush_interval (logger s') = flush_interval (logger s) /\
       thread (logger s') = thread (logger s) /\
       (reliable sink_error ->
        persisted s' ++ batch' =
          persisted s ++ batch ++ map Request (take 1 (queue (logger s))) /\
        log s' = log s)).
Proof.
  intros HB Hlen. unfold _process_queue_iteration.
  apply ensures_bind, ensures_state.
  destruct (queue (logger s)) as [|item pending'] eqn:Hq.
  - apply ensures_bind, ensures_ret.
    apply (time_check_effect batch s).
    intros batch' s' Hb' Hq' Hbs Hfi Hth Hp.
    rewrite Hbs, Hq', Hq. repeat split; auto.
    + destruct Hb' as [-> | ->]; [unfold len; cbn; lia | exact Hlen].
    + rewrite app_nil_r. apply Hp; assumption.
    + apply Hp; assumption.
  - apply ensures_bind.
    apply ensures_bind, ensures_state.
    set (s1 := with_logger (with_queue pending' (logger s)) s).
    assert (Hlen1 : len (batch ++ [Request item]) = len batch + 1)
      by (rewrite len_app; reflexivity).
    assert (Hs1 : persisted s1 = persisted s /\ log s1 = log s)
      by (split; reflexivity).
    destruct Hs1 as [Hps1 Hlog1].
    destruct (Z.geb_spec (len (batch ++ [Request item]))
                (batch_size (logger s))) as [Hfull|Hroom].
    + apply flush_batch_effect. intros s2 Hq2 Hbs2 Hfi2 Hth2 Hp2.
      apply (time_check_effect [] s2).
      intros batch' s' Hb' Hq' Hbs Hfi Hth Hp.
      assert (batch' = []) as -> by (destruct Hb'; assumption).
      rewrite Hbs, Hbs2, Hq', Hq2, Hfi, Hfi2, Hth, Hth2.
      split; [unfold len; cbn; lia|].
      repeat (split; [reflexivity|]).
      intros Hrel. destruct (Hp Hrel) as [Hp' Hl']. destruct (Hp2 Hrel) as [Hp2' Hl2'].
      split; [|congruence].
      rewrite Hp', Hp2', Hps1. cbn. now rewrite !app_nil_r.
    + apply ensures_ret.
      apply (time_check_effect (batch ++ [Request item]) s1).
      intros batch' s' Hb' Hq' Hbs Hfi Hth Hp.
      rewrite Hbs, Hq', Hfi, Hth.
      split; [destruct Hb' as [-> | ->]; [unfold len; cbn; lia | cbn; lia]|].
      repeat (split; [reflexivity|]).
      intros Hrel. destruct (Hp Hrel) as [Hp' Hl'].
      split; [|congruence].
      rewrite Hp', Hps1. cbn. rewrite <- ?app_assoc. reflexivity.
Qed.

End Worker.

Section WorkerTurns.

Variable now_at : nat -> Z.
Variable sink_error : nat -> list RequestModel -> option exn.

Lemma process_queue_turns_effect (n : nat) :
  forall (batch : list RequestModel) (s : State),
    0 < batch_size (logger s) ->
    len batch < batch_size (logger s) ->
    ensures (_process_queue_turns now_at sink_error n batch) s
      (fun batch' s' =>
         len batch' < batch_size (logger s') /\
         queue (logger s') = drop n (queue (logger s)) /\
         batch_size (logger s') = batch_size (logger s) /\
         flush_interval (logger s') = flush_interval (logger s) /\
         thread (logger s') = thread (logger s) /\
         (reliable sink_error ->
          persisted s' ++ batch' =
            persisted s ++ batch ++ map Request (take n (queue (logger s))) /\
          log s' = log s)).
Proof.
  induction n as [|n IH]; intros batch s HB Hlen.
  - apply ensures_ret. rewrite drop_0, take_0. cbn. rewrite app_nil_r.
    auto 10.
  - cbn [_process_queue_turns]. apply ensures_bind.
    eapply ensures_weaken;
      [apply (process_queue_iteration_effect now_at sink_error batch s HB Hlen)|].
    cbn beta. intros b1 s1 (Hlen1 & Hq1 & Hbs1 & Hfi1 & Hth1 & Hp1).
    eapply ensures_weaken; [apply (IH b1 s1); [lia | exact Hlen1]|].
    cbn beta. intros b' s' (Hlen' & Hq' & Hbs' & Hfi' & Hth' & Hp').
    split; [exact Hlen'|].
    split; [rewrite Hq', Hq1, drop_drop; reflexivity|].
    split; [congruence|]. split; [congruence|]. split; [congruence|].
    intros Hrel. destruct (Hp1 Hrel) as [Hp1a Hp1b].
    destruct (Hp' Hrel) as [Hp'a Hp'b].
    split; [|congruence].
    rewrite Hp'a, app_assoc, Hp1a, Hq1, <- !app_assoc.
    rewrite <- map_app, (take_take_drop _ 1 n). reflexivity.
Qed.

(** X5: the loop of the worker never raises, whatever the sink and the
    clock do and for any number of turns: an insert that raises ends in the
    flush, not in the thread. *)
Theorem process_queue_never_raises (n : nat) (batch : list RequestModel) :
  returns (_process_queue_turns now_at sink_error n batch).
Proof.
  revert batch. induction n as [|n IH]; intros batch.
  - apply returns_ret.
  - cbn [_process_queue_turns].
    apply returns_bind; [apply process_queue_iteration_returns | exact IH].
Qed.

(** X6: whatever the sink does, when the worker enters a turn with fewer
    records in its batch than the batch size, it ends every later turn with
    fewer records than the batch size: the batch never outgrows the
    threshold, also when inserts raise.  Each turn takes at most one item
    off the queue, the first. *)
Theorem process_queue_batch_bounded (n : nat) (batch : list RequestModel)
    (s : State) :
  0 < batch_size (logger s) ->
  len batch < batch_size (logger s) ->
  ensures (_process_queue_turns now_at sink_error n batch) s
    (fun batch' s' =>
       len batch' < batch_size (logger s) /\
       queue (logger s') = drop n (queue (logger s)) /\
       batch_size (logger s') = batch_size (logger s) /\
       flush_interval (logger s') = flush_interval (logger s)).
Proof.
  intros HB Hlen.
  eapply ensures_weaken; [apply (process_queue_turns_effect n batch s HB Hlen)|].
  cbn beta. intros b' s' (Hlen' & Hq' & Hbs' & Hfi' & _).
  rewrite <- Hbs'. auto.
Qed.

(** X7: when no insert raises, the worker loses and reorders nothing: after
    any number of turns the persisted records followed by the batch in hand
    are the former ones followed by the items taken off the queue, and
    nothing is logged; once there were as many turns as queued items the
    queue is empty. *)
Theorem process_queue_conserves (n : nat) (batch : list RequestModel)
    (s : State) :
  reliable sink_error ->
  0 < batch_size (logger s) ->
  len batch < batch_size (logger s) ->
  ensures (_process_queue_turns now_at sink_error n batch) s
    (fun batch' s' =>
       persisted s' ++ batch' =
         persisted s ++ batch ++ map Request (take n (queue (logger s))) /\
       log s' = log s /\
       ((length (queue (logger s)) <= n)%nat ->
        queue (logger s') = [] /\
        persisted s' ++ batch' =
          persisted s ++ batch ++ map Request (queue (logger s)))).
Proof.
  intros Hrel HB Hlen.
  eapply ensures_weaken; [apply (process_queue_turns_effect n batch s HB Hlen)|].
  cbn beta. intros b' s' (_ & Hq' & _ & _ & _ & Hp).
  destruct (Hp Hrel) as [Hpa Hpb].
  split; [exact Hpa|]. split; [exact Hpb|].
  intros Hn. rewrite Hq', Hpa, drop_ge, take_ge by exact Hn. auto.
Qed.

(** X8: a turn of the worker that finds the queue empty flushes a non-empty
    batch exactly when more time than the flush interval has passed since
    the last flush (an interval that has just elapsed is not enough); it
    then keeps nothing in hand.  Otherwise it inserts nothing and keeps the
    batch; with an empty batch it does not even read the clock. *)
Theorem process_queue_time_flush (batch : list RequestModel) (s : State) :
  queue (logger s) = [] ->
  let elapsed := now_at (clock s) - last_flush (logger s) in
  (batch = [] ->
   _process_queue_iteration now_at sink_error batch s = (inr [], s)) /\
  (batch <> [] -> elapsed <= flush_interval (logger s) ->
   ensures (_process_queue_iteration now_at sink_error batch) s
     (fun batch' s' =>
        batch' = batch /\ database s' = database s /\
        bulk_calls s' = bulk_calls s /\ logger s' = logger s /\
        log s' = log s)) /\
  (batch <> [] -> flush_interval (logger s) < elapsed ->
   ensures (_process_queue_iteration now_at sink_error batch) s
     (fun batch' s' =>
        batch' = [] /\
        bulk_calls s' = S (bulk_calls s) /\
        database s' =
          match sink_error (bulk_calls s) batch with
          | None => database s ++ [batch]
          | Some _ => database s
          end)).
Proof.
  intros Hq elapsed. subst elapsed.
  unfold _process_queue_iteration.
  repeat split.
  - intros ->. unfold mbind, M_bind, get_logger. rewrite Hq. reflexivity.
  - intros Hne Hle. destruct batch as [|x batch]; [congruence|].
    apply ensures_bind, ensures_state. rewrite Hq.
    apply ensures_bind, ensures_ret.
    apply ensures_bind, ensures_state.
    apply ensures_bind, ensures_state. cbn.
    destruct (Z.gtb_spec (now_at (clock s) - last_flush (logger s))
                (flush_interval (logger s))); [lia|].
    apply ensures_ret. auto.
  - intros Hne Hlt. destruct batch as [|x batch]; [congruence|].
    apply ensures_bind, ensures_state. rewrite Hq.
    apply ensures_bind, ensures_ret.
    apply ensures_bind, ensures_state.
    apply ensures_bind, ensures_state. cbn.
    destruct (Z.gtb_spec (now_at (clock s) - last_flush (logger s))
                (flush_interval (logger s))); [|lia].
    unfold ensures. rewrite flush_batch_run. cbn.
    destruct (sink_error (bulk_calls s) (x :: batch)); eauto 10.
Qed.

End WorkerTurns.

Lemma process_queue_batch_bounded_witness :
  0 < batch_size (logger (sample_state three_items 2)) /\
  len ([] : list RequestModel)
    < batch_size (logger (sample_state three_items 2)) /\
  ensures (_process_queue_turns seconds db_error 3 [])
    (sample_state three_items 2)
    (fun batch' s' => len batch' < 2 /\ queue (logger s') = []).
Proof.
  assert (HB : 0 < batch_size (logger (sample_state three_items 2)))
    by (cbn; lia).
  assert (Hlen : len ([] : list RequestModel)
                 < batch_size (logger (sample_state three_items 2)))
    by reflexivity.
  split; [exact HB|]. split; [exact Hlen|].
  eapply ensures_weaken;
    [apply (process_queue_batch_bounded seconds db_error 3 [] _ HB Hlen)|].
  cbn beta. intros b' s' (Hb & Hq & _). split; [exact Hb | exact Hq].
Defined.

Lemma process_queue_conserves_witness :
  reliable no_error /\
  0 < batch_size (logger (sample_state three_items 2)) /\
  len ([] : list RequestModel)
    < batch_size (logger (sample_state three_items 2)) /\
  ensures (_process_queue_turns seconds no_error 3 [])
    (sample_state three_items 2)
    (fun batch' s' =>
       persisted s' ++ batch' = map Request three_items /\
       queue (logger s') = []).
Proof.
  assert (Hrel : reliable no_error) by (intros k b; reflexivity).
  assert (HB : 0 < batch_size (logger (sample_state three_items 2)))
    by (cbn; lia).
  assert (Hlen : len ([] : list RequestModel)
                 < batch_size (logger (sample_state three_items 2)))
    by reflexivity.
  split; [exact Hrel|]. split; [exact HB|]. split; [exact Hlen|].
  eapply ensures_weaken;
    [apply (process_queue_conserves seconds no_error 3 [] _ Hrel HB Hlen)|].
  cbn beta. intros b' s' (_ & _ & Hall).
  destruct Hall as [Hq Hp]; [cbn; lia|]. split; [exact Hp | exact Hq].
Defined.

Lemma process_queue_time_flush_witness :
  queue (logger (sample_state [] 2)) = [] /\
  [Request (sample_item 1)] <> [] /\
  flush_interval (logger (sample_state [] 2))
    < late_clock (clock (sample_state [] 2))
      - last_flush (logger (sample_state [] 2)) /\
  ensures (_process_queue_iteration late_clock no_error
             [Request (sample_item 1)]) (sample_state [] 2)
    (fun batch' s' =>
       batch' = [] /\ database s' = [[Request (sample_item 1)]]).
Proof.
  assert (Hq : queue (logger (sample_state [] 2)) = []) by reflexivity.
  assert (Hne : [Request (sample_item 1)] <> []) by discriminate.
  assert (Hlt : flush_interval (logger (sample_state [] 2))
                < late_clock (clock (sample_state [] 2))
                  - last_flush (logger (sample_state [] 2)))
    by (vm_compute; reflexivity).
  split; [exact Hq|]. split; [exact Hne|]. split; [exact Hlt|].
  destruct (process_queue_time_flush late_clock no_error
              [Request (sample_item 1)] (sample_state [] 2) Hq)
    as (_ & _ & H).
  eapply ensures_weaken; [apply (H Hne Hlt)|].
  cbn beta. intros b' s' (Hb & _ & Hdb). split; [exact Hb | exact Hdb].
Defined.

(** ** The middleware, further *)

Lemma get_error_content_returns (st : Z) (b : list byte) :
  exists text, _get_error_content (HttpResponse st b) = inr text.
Proof.
  unfold _get_error_content. cbn. destruct (st >=? 400); [|eauto].
  unfold decode_utf8. destruct (utf8_decode (map Byte.to_N b)); cbn; eauto.
Qed.

Section MiddlewareRecords.

Variable now_at : nat -> Z.

Lemma capture_returns_state (request : HttpRequest) (response : Response)
    (start_at : Z) (s1 s2 : State) :
  capture now_at request response start_at s1 = (inr tt, s2) ->
  exists item, s2 = enqueued item (snd (timezone_now now_at s1)).
Proof.
  unfold capture, mbind, M_bind, lift, timezone_now. cbn [fst snd].
  destruct (status_code response) as [e1|st]; [discriminate|].
  destruct (_calculate_sizes request response) as [e2|[rq rs]];
    [discriminate|].
  destruct (_get_error_content response) as [e3|err]; [discriminate|].
  destruct (_get_user_info request) as [u un].
  destruct (get_host request) as [e4|host]; [discriminate|].
  intros [= <-]. eexists. reflexivity.
Qed.

Lemma call_enqueues_derived_item (self : RequestLoggingMiddleware)
    (request : HttpRequest) (st : Z) (b : list byte) (host : string)
    (request_size response_size : Z) (s s1 : State) :
  get_response self request (snd (timezone_now now_at s))
    = (inr (HttpResponse st b), s1) ->
  get_host request = inr host ->
  _calculate_sizes request (HttpResponse st b)
    = inr (request_size, response_size) ->
  exists error,
    _get_error_content (HttpResponse st b) = inr error /\
    __call__ now_at self request s =
      (inr (HttpResponse st b),
       enqueued
         (derived_item request host (now_at (clock s)) (now_at (clock s1))
            st error request_size response_size)
         (snd (timezone_now now_at s1))).
Proof.
  intros Hh Hhost Hsizes.
  destruct (get_error_content_returns st b) as [err Herr].
  exists err. split; [exact Herr|].
  unfold __call__, mbind, M_bind, try_except_M.
  unfold timezone_now at 1. unfold timezone_now at 1 in Hh.
  cbn [fst snd] in *. rewrite Hh.
  unfold capture, mbind, M_bind, lift, timezone_now. cbn [fst snd].
  cbn [status_code mret Exc_ret]. rewrite Hsizes, Herr, Hhost.
  unfold derived_item. destruct (_get_user_info request) as [u un].
  reflexivity.
Qed.


(** X10: when the handler returns a response, the call returns that very
    response, whatever the request, the response and the state are, and
    inserts nothing; it either puts one record at the end of the queue and
    logs nothing, or leaves the queue as it is and logs one error line:
    never both and never neither. *)
Theorem call_records_or_reports (self : RequestLoggingMiddleware)
    (request : HttpRequest) (response : Response) (s s1 : State) :
  get_response self request (snd (timezone_now now_at s))
    = (inr response, s1) ->
  exists s',
    __call__ now_at self request s = (inr response, s') /\
    database s' = database s1 /\
    bulk_calls s' = bulk_calls s1 /\
    ((exists item, queue (logger s') = queue (logger s1) ++ [item] /\
                   log s' = log s1) \/
     (exists e, queue (logger s') = queue (logger s1) /\
                log s' = log s1 ++
                  [{| levelname := ERROR;
                      name := "numenor_monitor.middlewares";
                      message := "Error in RequestLoggingMiddleware: "
                                 +:+ exn_str e |}])).
Proof.
  intros Hh. unfold __call__, mbind, M_bind, try_except_M.
  unfold timezone_now at 1. unfold timezone_now at 1 in Hh.
  cbn [fst snd] in *. rewrite Hh.
  destruct (capture now_at request response (now_at (clock s)) s1)
    as [[e|[]] s2] eqn:Hc.
  - apply capture_raises_state in Hc. subst s2.
    cbn [existsb]. rewrite isinstance_Exception. cbn [orb].
    eexists. split; [reflexivity|]. cbn. eauto 10.
  - apply capture_returns_state in Hc. destruct Hc as [item ->].
    eexists. split; [reflexivity|]. cbn. eauto 10.
Qed.

End MiddlewareRecords.


Lemma call_records_or_reports_witness :
  get_response not_found_view bad_length_request
    (snd (timezone_now seconds (sample_state [] 2)))
  = (inr not_found, snd (timezone_now seconds (sample_state [] 2))) /\
  exists s',
    __call__ seconds not_found_view bad_length_request (sample_state [] 2)
    = (inr not_found, s') /\
    database s' = [].
Proof.
  split; [reflexivity|].
  destruct (call_records_or_reports seconds not_found_view
              bad_length_request not_found (sample_state [] 2) _ eq_refl)
    as (s' & Hrun & Hdb & _).
  exists s'. split; [exact Hrun | exact Hdb].
Defined.

(** ** The derivations, further *)

(** X11: the user of a record is the user of the request exactly when the
    request has one and it is authenticated, and the username is then that
    user's; in every other case (no user attribute, no user, a user that
    is not authenticated) the record has no user and an empty username. *)
Theorem get_user_info_authenticated_only (request : HttpRequest) :
  (forall u, user request = Some (Some u) -> is_authenticated u = true ->
             _get_user_info request = (Some u, username u)) /\
  (forall u name, _get_user_info request = (Some u, name) ->
                  user request = Some (Some u) /\
                  is_authenticated u = true /\
                  name = username u) /\
  (forall name, _get_user_info request = (None, name) ->
                name = "" /\
                forall u, user request = Some (Some u) ->
                          is_authenticated u = false).
Proof.
  unfold _get_user_info.
  destruct (user request) as [[u0|]|]; repeat split;
    try (destruct (is_authenticated u0) eqn:Hauth);
    try congruence; intros; simplify_eq; auto.
Qed.

Lemma get_user_info_authenticated_only_witness :
  user authenticated_request = Some (Some testuser) /\
  is_authenticated testuser = true /\
  _get_user_info authenticated_request = (Some testuser, "testuser").
Proof.
  split; [reflexivity|]. split; [reflexivity|].
  destruct (get_user_info_authenticated_only authenticated_request)
    as (H & _ & _).
  apply (H testuser); reflexivity.
Defined.

(** X12: the response size is the length of the body of a response that
    has one and 0 for one that has none, and is never negative.  Deriving
    the sizes raises in two cases only, whatever the response: the
    content-length header is not empty and [int] raises on it (a
    [ValueError]), or the header is absent or empty and reading the body of
    the request raises; what is raised is then passed on. *)
Theorem calculate_sizes_response_size (request : HttpRequest)
    (response : Response) :
  (forall request_size response_size,
     _calculate_sizes request response = inr (request_size, response_size) ->
     response_size =
       match response with
       | HttpResponse _ b => len b
       | _ => 0
       end /\
     0 <= response_size) /\
  (forall e, _calculate_sizes request response = inl e ->
     (exn_type e = ValueError /\
      exists cl, META request !! "CONTENT_LENGTH" = Some cl /\
                 cl <> "" /\ int cl = inl e) \/
     ((META request !! "CONTENT_LENGTH" = None \/
       META request !! "CONTENT_LENGTH" = Some "") /\
      body request = inl e)).
Proof.
  unfold _calculate_sizes. split.
  - intros rq rs.
    destruct (match META request !! "CONTENT_LENGTH" with
              | Some cl =>
                  if str_truthy cl then int cl
                  else b ← body request; mret (len b)
              | None => b ← body request; mret (len b)
              end) as [e|n]; [discriminate|].
    cbn. destruct response as [st b| st |]; cbn; intros [= <- <-];
      unfold len; split; (reflexivity || lia).
  - intros e. destruct (response_size_returns response) as [rs Hrs].
    destruct (META request !! "CONTENT_LENGTH") as [[|c cl]|] eqn:Hcl;
      cbn [str_truthy].
    + destruct (body request) as [e'|b]; cbn.
      * intros [= <-]. right. auto.
      * rewrite Hrs. discriminate.
    + destruct (int (String c cl)) as [e'|n] eqn:Hint; cbn.
      * intros [= <-]. left. split; [apply (int_raises _ _ Hint)|].
        exists (String c cl). auto.
      * rewrite Hrs. discriminate.
    + destruct (body request) as [e'|b]; cbn.
      * intros [= <-]. right. auto.
      * rewrite Hrs. discriminate.
Qed.

Lemma calculate_sizes_response_size_witness :
  _calculate_sizes sized_request not_found = inr (42, 5) /\
  5 = len (list_byte_of_string "Error").
Proof.
  assert (H : _calculate_sizes sized_request not_found = inr (42, 5))
    by (vm_compute; reflexivity).
  split; [exact H|].
  destruct (calculate_sizes_response_size sized_request not_found) as [Hs _].
  destruct (Hs 42 5 H) as [Hrs _]. exact Hrs.
Defined.

(** X13: the derivation of the error text raises only for a response
    without a body ([None], or a streaming response with a status of 400 or
    more), and then [AttributeError]; for a response with a body it always
    yields a text: a decoding error never leaves the function. *)
Theorem get_error_content_raises_without_body (response : Response) :
  (forall e, _get_error_content response = inl e ->
             exn_type e = AttributeError /\
             (response = NoResponse \/
              exists st, response = StreamingHttpResponse st /\ 400 <= st)) /\
  (forall st b, response = HttpResponse st b ->
                exists text, _get_error_content response = inr text).
Proof.
  split.
  - intros e. destruct response as [st b|st|].
    + destruct (get_error_content_returns st b) as [t ->]. discriminate.
    + unfold _get_error_content. cbn.
      destruct (Z.geb_spec st 400); [|discriminate].
      intros [= <-]. split; [reflexivity|]. right. eauto.
    + cbn. intros [= <-]. auto.
  - intros st b ->. apply get_error_content_returns.
Qed.

Lemma get_error_content_raises_without_body_witness :
  _get_error_content (StreamingHttpResponse 500) =
    inl (Raise AttributeError
           "This StreamingHttpResponse instance has no `content` attribute. Use `streaming_content` instead.") /\
  exn_type (Raise AttributeError
           "This StreamingHttpResponse instance has no `content` attribute. Use `streaming_content` instead.") = AttributeError.
Proof.
  assert (H : _get_error_content (StreamingHttpResponse 500) =
    inl (Raise AttributeError
           "This StreamingHttpResponse instance has no `content` attribute. Use `streaming_content` instead."))
    by reflexivity.
  split; [exact H|].
  destruct (get_error_content_raises_without_body (StreamingHttpResponse 500))
    as [Hr _].
  destruct (Hr _ H) as [Hc _]. exact Hc.
Defined.

(** X14: for a status of 400 or more, the error text of a response whose
    body is the UTF-8 encoding of a text is that text, code point for code
    point. *)
Theorem get_error_content_round_trip (st : Z) (b : list byte)
    (text : unicode) :
  400 <= st ->
  Forall scalar_value text ->
  map Byte.to_N b = utf8_encode text ->
  _get_error_content (HttpResponse st b) = inr text.
Proof. apply get_error_content_encoded. Qed.

Lemma get_error_content_round_trip_witness :
  400 <= 500 /\
  Forall scalar_value [233%N; 8364%N] /\
  map Byte.to_N (e_acute ++ [Byte.xe2; Byte.x82; Byte.xac])
    = utf8_encode [233%N; 8364%N] /\
  _get_error_content
    (HttpResponse 500 (e_acute ++ [Byte.xe2; Byte.x82; Byte.xac]))
  = inr [233%N; 8364%N].
Proof.
  assert (Hst : 400 <= 500) by lia.
  assert (Hsc : Forall scalar_value [233%N; 8364%N])
    by (repeat constructor; left; reflexivity).
  assert (Hb : map Byte.to_N (e_acute ++ [Byte.xe2; Byte.x82; Byte.xac])
               = utf8_encode [233%N; 8364%N]) by reflexivity.
  split; [exact Hst|]. split; [exact Hsc|]. split; [exact Hb|].
  exact (get_error_content_round_trip 500 _ _ Hst Hsc Hb).
Defined.

(** ** The URL of a record *)

Lemma append_String (x : ascii) (a b : string) :
  String x a +:+ b = String x (a +:+ b).
Proof. reflexivity. Qed.

Lemma append_assoc_str (a b c : string) : (a +:+ b) +:+ c = a +:+ b +:+ c.
Proof.
  induction a as [|x a IH]; [reflexivity|].
  now rewrite !append_String, IH.
Qed.

Lemma append_empty_r (a : string) : a +:+ "" = a.
Proof.
  induction a as [|x a IH]; [reflexivity|].
  now rewrite append_String, IH.
Qed.

Lemma contains_app (c : ascii) (a b : string) :
  contains c (a +:+ b) = contains c a || contains c b.
Proof.
  induction a as [|x a IH]; [reflexivity|].
  rewrite append_String, !contains_String, IH. now rewrite orb_assoc.
Qed.

Lemma py_split_String (sep c : ascii) (s : string) :
  py_split sep (String c s) =
    if Ascii.eqb c sep then EmptyString :: py_split sep s
    else match py_split sep s with
         | piece :: rest => String c piece :: rest
         | [] => [String c EmptyString]
         end.
Proof. reflexivity. Qed.

Lemma py_split_without (sep : ascii) (a : string) :
  contains sep a = false -> py_split sep a = [a].
Proof.
  induction a as [|x a IH]; [reflexivity|].
  rewrite contains_String. intros H. apply orb_false_elim in H as [Hx Ha].
  rewrite py_split_String, Ascii.eqb_sym, Hx, (IH Ha). reflexivity.
Qed.

Lemma py_split_item0_app (sep : ascii) (a b : string) :
  contains sep a = false ->
  item0 (py_split sep (a +:+ String sep b)) = a.
Proof.
  induction a as [|x a IH].
  - intros _. change ("" +:+ String sep b) with (String sep b).
    rewrite py_split_String, Ascii.eqb_refl. reflexivity.
  - rewrite contains_String. intros H. apply orb_false_elim in H as [Hx Ha].
    rewrite append_String, py_split_String, Ascii.eqb_sym, Hx.
    specialize (IH Ha).
    destruct (py_split sep (a +:+ String sep b)) as [|piece rest] eqn:Hs.
    + now apply py_split_nonempty in Hs.
    + cbn [item0] in *. now rewrite IH.
Qed.

(** X15: when the scheme, the host and the path of a record hold no
    question mark, the text of the record up to its first question mark is
    scheme://host followed by the path, and the text has a question mark
    exactly when the query of the record is not empty, in which case the
    query follows it. *)
Theorem str_splits_at_query (f : Fields) :
  contains "?" (url_base f) = false ->
  item0 (py_split "?" (__str__ (Request f))) = url_base f /\
  contains "?" (__str__ (Request f)) = str_truthy (f_query f) /\
  (f_query f = "" -> __str__ (Request f) = url_base f) /\
  (f_query f <> "" ->
   __str__ (Request f) = url_base f +:+ "?" +:+ f_query f).
Proof.
  intros Hbase.
  assert (Hstr : __str__ (Request f) =
                 url_base f +:+
                 (if str_truthy (f_query f) then "?" +:+ f_query f else "")).
  { unfold __str__, url_base. now rewrite !append_assoc_str. }
  rewrite Hstr. destruct (f_query f) as [|c q]; cbn [str_truthy].
  - rewrite append_empty_r. repeat split; try congruence.
    now rewrite py_split_without.
  - repeat split; try congruence.
    + now apply py_split_item0_app.
    + rewrite contains_app, Hbase. reflexivity.
Qed.

Lemma str_splits_at_query_witness :
  contains "?" (url_base query_item) = false /\
  __str__ (Request query_item) = "https://example.com/search?q=test" /\
  item0 (py_split "?" (__str__ (Request query_item)))
    = "https://example.com/search".
Proof.
  assert (H : contains "?" (url_base query_item) = false) by reflexivity.
  split; [exact H|]. split; [reflexivity|].
  destruct (str_splits_at_query query_item H) as (Hitem & _).
  rewrite Hitem. reflexivity.
Defined.

(** ** Flushing twice *)

Section FlushTwice.

Variable now_at : nat -> Z.
Variable sink_error : nat -> list RequestModel -> option exn.

(** X16: a second flush of a list that was just flushed finds it empty: it
    calls the sink once more, with no record, and whether that call raises
    or not the persisted records are those left by the first flush and the
    list stays empty. *)
Theorem flush_batch_twice (batch : list RequestModel) (s : State) :
  ensures (batch' ← _flush_batch now_at sink_error batch;
           _flush_batch now_at sink_error batch') s
    (fun batch'' s'' =>
       batch'' = [] /\
       persisted s'' = persisted (snd (_flush_batch now_at sink_error batch s)) /\
       bulk_calls s'' = S (S (bulk_calls s)) /\
       queue (logger s'') = queue (logger s)).
Proof.
  apply ensures_bind. unfold ensures.
  destruct (_flush_batch now_at sink_error batch s) as [r s1] eqn:H1.
  pose proof (flush_batch_run now_at sink_error batch s) as Hrun.
  rewrite H1 in Hrun.
  assert (Hr : r = inr [] /\ bulk_calls s1 = S (bulk_calls s) /\
               queue (logger s1) = queue (logger s)).
  { destruct (sink_error (bulk_calls s) batch);
      injection Hrun as -> ->; auto. }
  destruct Hr as (-> & Hn1 & Hq1).
  exists [], s1. split; [reflexivity|].
  rewrite flush_batch_run.
  destruct (sink_error (bulk_calls s1) []); eexists _, _;
    (split; [reflexivity|]); cbn; rewrite Hn1, Hq1; repeat split.
  unfold persisted. cbn. rewrite concat_app. cbn. now rewrite app_nil_r.
Qed.

End FlushTwice.

(** ** The client address, further *)

(** X17: what follows the first comma of the forwarded-for header has no
    part in the derived address, and neither has the remote address once
    the header is not empty: a header made of a comma-free text, a comma
    and anything else derives that text (the empty text when the header
    starts with a comma), and a non-empty comma-free header derives
    itself. *)
Theorem get_client_ip_ignores_tail (request : HttpRequest) (ip : string) :
  contains "," ip = false ->
  (forall tail,
     META request !! "HTTP_X_FORWARDED_FOR" = Some (ip +:+ String "," tail) ->
     get_client_ip request = Some ip) /\
  (ip <> "" ->
   META request !! "HTTP_X_FORWARDED_FOR" = Some ip ->
   get_client_ip request = Some ip).
Proof.
  intros Hip. unfold get_client_ip. split.
  - intros tail ->.
    assert (Ht : str_truthy (ip +:+ String "," tail) = true)
      by (destruct ip; reflexivity).
    rewrite Ht, py_split_item0_app by exact Hip. reflexivity.
  - intros Hne ->. destruct ip as [|c ip]; [congruence|].
    cbn [str_truthy]. rewrite py_split_without by exact Hip. reflexivity.
Qed.

Lemma get_client_ip_ignores_tail_witness :
  contains "," "10.0.0.1" = false /\
  META forwarded_request !! "HTTP_X_FORWARDED_FOR"
    = Some ("10.0.0.1" +:+ String "," " 192.168.1.1") /\
  get_client_ip forwarded_request = Some "10.0.0.1".
Proof.
  assert (H : contains "," "10.0.0.1" = false) by reflexivity.
  split; [exact H|]. split; [vm_compute; reflexivity|].
  destruct (get_client_ip_ignores_tail forwarded_request "10.0.0.1" H)
    as [Ht _].
  apply (Ht " 192.168.1.1"). vm_compute. reflexivity.
Defined.

(** ** From the request to the database *)

Section EndToEnd.

Variable now_at : nat -> Z.
Variable sink_error : nat -> list RequestModel -> option exn.


End EndToEnd.

